(** * Write-barrier policy and guarded pointers of the recycler

    A shallow embedding of [lib/Common/Memory/RecyclerPointers.h]:

    - the template chain that resolves, from an allocator and an element
      type, whether a write needs the recycler's write barrier;
    - the three wrapper classes [NoWriteBarrierField], [NoWriteBarrierPtr]
      and [WriteBarrierPtr] over a byte-addressed memory;
    - the array operations ([WriteBarrier], [CopyArray], [MoveArray],
      [ClearArray]) and the [min]/[max] overloads.

    Template specialisation is embedded as pattern matching on a syntax of
    C++ types, the preprocessor switch [RECYCLER_WRITE_BARRIER] as a boolean
    of the build description, member functions as state transformers that
    take the address [this] of the object, and a write through a pointer to
    const, which is ill-formed, as [None]. *)

From Stdlib Require Import ZArith Bool String Lia.
From Stdlib Require Import Strings.Byte.
From coqutil Require Import Byte Word.LittleEndianList.
From Stdlib Require Import List.
Import ListNotations.

Local Open Scope Z_scope.

(** ** Types and allocators that instantiate the templates *)

(** The two tag classes [_write_barrier_policy] and
    [_no_write_barrier_policy]. *)
Inductive Policy : Type :=
| _write_barrier_policy
| _no_write_barrier_policy.

(** The C++ types the header distinguishes.  [TObject name size] stands for
    any other complete object type, with its [sizeof] in bytes. *)
Inductive CType : Type :=
| TInt
| TObject (name : string) (size : nat)
| TPointer (T : CType)
| TWriteBarrierPtr (T : CType)
| TNoWriteBarrierPtr (T : CType)
| TNoWriteBarrierField (T : CType)
| TPolicyTag (P : Policy).

(** Allocator classes.  The header declares [Recycler] and
    [RecyclerNonLeafAllocator] and names [RecyclerLeafAllocator] in a
    comment; every other allocator class is [OtherAllocator]. *)
Inductive Allocator : Type :=
| Recycler
| RecyclerNonLeafAllocator
| RecyclerLeafAllocator
| OtherAllocator (name : string).

(** What a build fixes and the header only uses: whether
    [RECYCLER_WRITE_BARRIER] is defined, the width of a pointer (and of
    [size_t]) in bytes, [sizeof(int)], and the [AllocatorType] member of
    [AllocatorInfo<Allocator, void>], which is declared with the
    allocators. *)
Record Build : Type := mkBuild {
  RECYCLER_WRITE_BARRIER : bool;
  pointer_bytes : nat;
  int_bytes : nat;
  AllocatorInfo_AllocatorType : Allocator -> Allocator
}.

(** The table the header's comment describes: "Recycler allocator type
    consists of multiple allocators: Recycler, RecyclerNonLeafAllocator,
    RecyclerLeafAllocator"; any other allocator is its own type. *)
Definition RecyclerAllocatorInfo (A : Allocator) : Allocator :=
  match A with
  | Recycler | RecyclerNonLeafAllocator | RecyclerLeafAllocator => Recycler
  | OtherAllocator name => OtherAllocator name
  end.

(** A 64-bit build with the barrier compiled in, and the same build with
    the barrier compiled out. *)
Definition barrier_build : Build := mkBuild true 8 4 RecyclerAllocatorInfo.
Definition plain_build : Build := mkBuild false 8 4 RecyclerAllocatorInfo.

(** ** Policy resolution *)

(** [TypeWriteBarrierPolicy<T>::Policy]: the primary template and its three
    specialisations. *)
Definition TypeWriteBarrierPolicy (T : CType) : Policy :=
  match T with
  | TPointer _ => _write_barrier_policy
  | TWriteBarrierPtr _ => _write_barrier_policy
  | TPolicyTag _write_barrier_policy => _write_barrier_policy
  | _ => _no_write_barrier_policy
  end.

(** [_AllocatorTypeWriteBarrierPolicy<AllocatorType>::Policy]. *)
Definition _AllocatorTypeWriteBarrierPolicy (AllocatorType : Allocator) : Policy :=
  match AllocatorType with
  | Recycler => _write_barrier_policy
  | _ => _no_write_barrier_policy
  end.

(** [_AndWriteBarrierPolicy<Policy1, Policy2>::Policy]. *)
Definition _AndWriteBarrierPolicy (Policy1 Policy2 : Policy) : Policy :=
  match Policy1, Policy2 with
  | _write_barrier_policy, _write_barrier_policy => _write_barrier_policy
  | _, _ => _no_write_barrier_policy
  end.

(** The primary template of [AllocatorWriteBarrierPolicy]: allocator type
    and element type combined. *)
Definition AllocatorWriteBarrierPolicy_primary
    (b : Build) (A : Allocator) (T : CType) : Policy :=
  _AndWriteBarrierPolicy
    (_AllocatorTypeWriteBarrierPolicy (AllocatorInfo_AllocatorType b A))
    (TypeWriteBarrierPolicy T).

(** The specialisations of [AllocatorWriteBarrierPolicy], most specialised
    first; [None] when only the primary template matches. *)
Definition AllocatorWriteBarrierPolicy_specialized
    (A : Allocator) (T : CType) : option Policy :=
  match A, T with
  | RecyclerNonLeafAllocator, TInt => Some _no_write_barrier_policy
  | RecyclerNonLeafAllocator, _ => Some _write_barrier_policy
  | _, _ => None
  end.

(** [AllocatorWriteBarrierPolicy<Allocator, T>::Policy]. *)
Definition AllocatorWriteBarrierPolicy
    (b : Build) (A : Allocator) (T : CType) : Policy :=
  match AllocatorWriteBarrierPolicy_specialized A T with
  | Some P => P
  | None => AllocatorWriteBarrierPolicy_primary b A T
  end.

(** The class template a pointer member is declared with. *)
Inductive PtrClass : Type :=
| UseNoWriteBarrierPtr
| UseWriteBarrierPtr.

(** [_WriteBarrierPtrPolicy<T, Policy>::Ptr]. *)
Definition _WriteBarrierPtrPolicy (P : Policy) : PtrClass :=
  match P with
  | _write_barrier_policy => UseWriteBarrierPtr
  | _no_write_barrier_policy => UseNoWriteBarrierPtr
  end.

(** [WriteBarrierPtrTraits<T, Allocator>::Ptr], with the default
    [Policy = AllocatorWriteBarrierPolicy<Allocator, T*>::Policy]. *)
Definition WriteBarrierPtrTraits (b : Build) (T : CType) (A : Allocator) : PtrClass :=
  _WriteBarrierPtrPolicy (AllocatorWriteBarrierPolicy b A (TPointer T)).

(** [_ArrayItemTypeTraits<T, Policy>::Type]. *)
Definition _ArrayItemTypeTraits (T : CType) (P : Policy) : CType :=
  match T, P with
  | TPointer T', _write_barrier_policy => TWriteBarrierPtr T'
  | _, _ => T
  end.

(** [WriteBarrierArrayItemTraits<T, Allocator>::Type]. *)
Definition WriteBarrierArrayItemTraits (b : Build) (T : CType) (A : Allocator) : CType :=
  _ArrayItemTypeTraits T (AllocatorWriteBarrierPolicy b A T).

(** ** Object sizes and [size_t] arithmetic *)

(** [sizeof(T)].  Each wrapper class has its wrapped value as only member;
    the tag classes are empty. *)
Fixpoint sizeof (b : Build) (T : CType) : Z :=
  match T with
  | TInt => Z.of_nat (int_bytes b)
  | TObject _ size => Z.of_nat size
  | TPointer _ => Z.of_nat (pointer_bytes b)
  | TWriteBarrierPtr _ => Z.of_nat (pointer_bytes b)
  | TNoWriteBarrierPtr _ => Z.of_nat (pointer_bytes b)
  | TNoWriteBarrierField T' => sizeof b T'
  | TPolicyTag _ => 1
  end.

(** [size_t] is as wide as a pointer; its multiplication wraps around. *)
Definition size_t_modulus (b : Build) : Z := 2 ^ (8 * Z.of_nat (pointer_bytes b)).

Definition size_t_mul (b : Build) (x y : Z) : Z := (x * y) mod size_t_modulus b.

(** An array of [count] elements of [elem] bytes each that the address space
    can hold: its size in bytes is a [size_t] value. *)
Definition array_extent (b : Build) (elem count : Z) : Prop :=
  0 <= count /\ elem * count < size_t_modulus b.

(** ** Byte-addressed memory *)

Definition Mem : Type := Z -> byte.

(** [x] lies in the [n] bytes from [a]. *)
Definition in_range (a n x : Z) : bool := (a <=? x) && (x <? a + n).

Definition load_bytes (m : Mem) (a : Z) (n : nat) : list byte :=
  map (fun i => m (a + Z.of_nat i)) (seq 0 n).

Definition store_bytes (m : Mem) (a : Z) (bs : list byte) : Mem :=
  fun x =>
    if in_range a (Z.of_nat (length bs)) x
    then nth (Z.to_nat (x - a)) bs x00
    else m x.

(** The C library's [memmove]: the [n] bytes from [src], as they are before
    the call, end up from [dst]. *)
Definition memmove (m : Mem) (dst src n : Z) : Mem :=
  fun x => if in_range dst n x then m (src + (x - dst)) else m x.

(** The C library's [memcpy].  The C standard leaves it undefined on
    overlapping ranges; on disjoint ranges it is [memmove]. *)
Definition memcpy (m : Mem) (dst src n : Z) : Mem := memmove m dst src n.

(** The C library's [memset]: [val] is converted to [unsigned char]. *)
Definition memset (m : Mem) (dst val n : Z) : Mem :=
  fun x => if in_range dst n x then byte.of_Z val else m x.

(** A pointer value is the number of the byte it points to; its object
    representation is little-endian over [pointer_bytes] bytes
    ([le_split] and [le_combine]), so the null pointer is all zero bytes. *)
Definition load_pointer (b : Build) (m : Mem) (a : Z) : Z :=
  le_combine (load_bytes m a (pointer_bytes b)).

Definition store_pointer (b : Build) (m : Mem) (a : Z) (p : Z) : Mem :=
  store_bytes m a (le_split (pointer_bytes b) p).

(** ** The recycler's barrier manager and the program state *)

(** The two overloads of [RecyclerWriteBarrierManager::WriteBarrier]. *)
Inductive BarrierCall : Type :=
| WriteBarrier_at (address : Z)
| WriteBarrier_over (address : Z) (bytes : Z).

(** One call of the barrier, with the memory as it is when the call is
    made. *)
Record BarrierEvent : Type := mkEvent {
  event_call : BarrierCall;
  event_memory : Mem
}.

Record State : Type := mkState {
  memory : Mem;
  barrier_log : list BarrierEvent
}.

(** Modelled from the spec: [RecyclerWriteBarrierManager::WriteBarrier] is
    declared with the recycler, not in this header.  The specification gives
    the collector one notification entry point [notify(address, byteLength)]
    that cannot fail, and observes it through a hook that counts the calls
    and takes a snapshot of the stored bits at the time of each call: a call
    is appended to the log together with the memory it sees, and the memory
    is left as it is. *)
Definition RecyclerWriteBarrierManager_WriteBarrier (c : BarrierCall) (st : State) : State :=
  mkState (memory st) (barrier_log st ++ [mkEvent c (memory st)]).

(** Modelled from the spec: [js_memcpy_s] on [void *] is declared with the
    runtime's utilities, not in this header.  The specification has
    [CopyArray] copy the smaller of the two byte extents it is called
    with. *)
Definition js_memcpy_s (m : Mem) (dst sizeInBytes src count : Z) : Mem :=
  memcpy m dst src (Z.min sizeInBytes count).

(** The barrier calls made between [st] and the later state [st']. *)
Definition barrier_calls_since (st st' : State) : list BarrierEvent :=
  skipn (length (barrier_log st)) (barrier_log st').

(** ** Addresses of the wrapped values *)

(** An address as an expression yields it: where it points and whether the
    pointee may be written through it ([T**] against [T* const *]). *)
Record Address : Type := mkAddress {
  points_to : Z;
  writable : bool
}.

(** [*a = p] for a pointer [a] to a pointer: ill-formed through a pointer to
    const. *)
Definition write_pointer_through (b : Build) (a : Address) (p : Z) (st : State)
  : option State :=
  if writable a
  then Some (mkState (store_pointer b (memory st) (points_to a) p) (barrier_log st))
  else None.

(** [*a = v] for a pointer [a] to a value with object representation [v]. *)
Definition write_value_through (a : Address) (v : list byte) (st : State)
  : option State :=
  if writable a
  then Some (mkState (store_bytes (memory st) (points_to a) v) (barrier_log st))
  else None.

(** ** Array write barrier *)

(** [_ArrayWriteBarrier<Policy>::WriteBarrier<T>(address, count)]: the
    primary template does nothing; the specialisation for
    [_write_barrier_policy] exists only under [RECYCLER_WRITE_BARRIER]. *)
Definition _ArrayWriteBarrier
    (b : Build) (P : Policy) (T : CType) (st : State) (address count : Z) : State :=
  match P with
  | _write_barrier_policy =>
      if RECYCLER_WRITE_BARRIER b
      then RecyclerWriteBarrierManager_WriteBarrier
             (WriteBarrier_over address (size_t_mul b (sizeof b T) count)) st
      else st
  | _no_write_barrier_policy => st
  end.

(** [WriteBarrier<T, Allocator, PolicyType>(address, count)]. *)
Definition WriteBarrier
    (b : Build) (T : CType) (A : Allocator) (PolicyType : CType)
    (st : State) (address count : Z) : State :=
  _ArrayWriteBarrier b (AllocatorWriteBarrierPolicy b A PolicyType) T st address count.

(** [CopyArray<Allocator, T, PolicyType>(T* dst, dstCount, const T* src,
    srcCount)].  Its call of [js_memcpy_s] is written before the header
    declares its own overloads on [WriteBarrierPtr<T> *], which stand at
    global scope after the namespace is closed: the call is one of the
    function on [void *], for every element type, [WriteBarrierPtr]
    included. *)
Definition CopyArray
    (b : Build) (A : Allocator) (T : CType) (PolicyType : CType)
    (st : State) (dst dstCount src srcCount : Z) : State :=
  let st1 :=
    mkState (js_memcpy_s (memory st)
               dst (size_t_mul b (sizeof b T) dstCount)
               src (size_t_mul b (sizeof b T) srcCount))
            (barrier_log st) in
  WriteBarrier b T A PolicyType st1 dst dstCount.

(** ** [NoWriteBarrierField<T>] *)

Module NoWriteBarrierField.

(** The object as a value: its only member. *)
Record t (T : Type) : Type := wrap { value : T }.
Arguments wrap {T} _.
Arguments value {T} _.

(** [operator T const&() const], on a value. *)
Definition to_T {T : Type} (f : t T) : T := value f.

Section Members.
Variable b : Build.
Variable T : CType.

(** [explicit NoWriteBarrierField(T const& value)]; [v] is the object
    representation of the argument. *)
Definition construct (st : State) (this : Z) (v : list byte) : State :=
  mkState (store_bytes (memory st) this v) (barrier_log st).

(** [operator T const&() const] and [operator T&()]: a reference to
    [value]. *)
Definition operator_ref (const_object : bool) (this : Z) : Address :=
  mkAddress this (negb const_object).

(** The object representation of [value]. *)
Definition get (st : State) (this : Z) : list byte :=
  load_bytes (memory st) this (Z.to_nat (sizeof b T)).

(** [T const* operator&() const] and [T* operator&()]. *)
Definition operator_addr (const_object : bool) (this : Z) : Address :=
  mkAddress this (negb const_object).

(** [operator=(T const& value)]. *)
Definition assign (st : State) (this : Z) (v : list byte) : State :=
  mkState (store_bytes (memory st) this v) (barrier_log st).
End Members.

End NoWriteBarrierField.

(** ** [NoWriteBarrierPtr<T>] *)

Module NoWriteBarrierPtr.

Section Members.
Variable b : Build.

(** [NoWriteBarrierPtr(T * value)]. *)
Definition construct (st : State) (this value : Z) : State :=
  mkState (store_pointer b (memory st) this value) (barrier_log st).

(** [operator->] and [operator T* const &]. *)
Definition get (st : State) (this : Z) : Z :=
  load_pointer b (memory st) this.

(** [T* const * operator&() const] and [T** operator&()]. *)
Definition operator_addr (const_object : bool) (this : Z) : Address :=
  mkAddress this (negb const_object).

(** [operator=(T * value)]. *)
Definition assign (st : State) (this value : Z) : State :=
  mkState (store_pointer b (memory st) this value) (barrier_log st).
End Members.

End NoWriteBarrierPtr.

(** ** [WriteBarrierPtr<T>] *)

Module WriteBarrierPtr.

Section Members.
Variable b : Build.

(** [NoWriteBarrierSet(T * ptr)]. *)
Definition NoWriteBarrierSet (st : State) (this ptr : Z) : State :=
  mkState (store_pointer b (memory st) this ptr) (barrier_log st).

(** [WriteBarrierSet(T * ptr)]. *)
Definition WriteBarrierSet (st : State) (this ptr : Z) : State :=
  let st1 := NoWriteBarrierSet st this ptr in
  if RECYCLER_WRITE_BARRIER b
  then RecyclerWriteBarrierManager_WriteBarrier (WriteBarrier_at this) st1
  else st1.

(** [WriteBarrierPtr(T * ptr)]. *)
Definition construct (st : State) (this ptr : Z) : State :=
  NoWriteBarrierSet st this ptr.

(** [operator->] and [operator T* const &]. *)
Definition get (st : State) (this : Z) : Z :=
  load_pointer b (memory st) this.


(** [T* const * operator&() const], the only [operator&]: it is the one
    called on an object that is not const too. *)
Definition operator_addr (const_object : bool) (this : Z) : Address :=
  mkAddress this false.

(** [operator=(T * ptr)]. *)
Definition assign (st : State) (this ptr : Z) : State :=
  WriteBarrierSet st this ptr.

(** [operator=(WriteBarrierPtr const& other)]. *)
Definition assign_from (st : State) (this other : Z) : State :=
  WriteBarrierSet st this (get st other).

Variable T : CType.

(** [MoveArray(WriteBarrierPtr * dst, WriteBarrierPtr * src, count)];
    the cast to [void *] selects the library's [memmove]. *)
Definition MoveArray (st : State) (dst src count : Z) : State :=
  let st1 :=
    mkState (memmove (memory st) dst src
               (size_t_mul b (sizeof b (TWriteBarrierPtr T)) count))
            (barrier_log st) in
  WriteBarrier b (TWriteBarrierPtr T) Recycler (TWriteBarrierPtr T) st1 dst count.

(** [CopyArray(WriteBarrierPtr * dst, dstCount, T const* src,
    srcCount)]. *)
Definition CopyArray_raw (st : State) (dst dstCount src srcCount : Z) : State :=
  let st1 :=
    mkState (js_memcpy_s (memory st)
               dst (size_t_mul b (sizeof b (TWriteBarrierPtr T)) dstCount)
               src (size_t_mul b (sizeof b (TPointer T)) srcCount))
            (barrier_log st) in
  WriteBarrier b (TWriteBarrierPtr T) Recycler (TWriteBarrierPtr T) st1 dst dstCount.

(** [CopyArray(WriteBarrierPtr * dst, dstCount, WriteBarrierPtr const*
    src, srcCount)]. *)
Definition CopyArray (st : State) (dst dstCount src srcCount : Z) : State :=
  let st1 :=
    mkState (js_memcpy_s (memory st)
               dst (size_t_mul b (sizeof b (TWriteBarrierPtr T)) dstCount)
               src (size_t_mul b (sizeof b (TWriteBarrierPtr T)) srcCount))
            (barrier_log st) in
  WriteBarrier b (TWriteBarrierPtr T) Recycler (TWriteBarrierPtr T) st1 dst dstCount.

(** [ClearArray(WriteBarrierPtr * dst, count)]. *)
Definition ClearArray (st : State) (dst count : Z) : State :=
  mkState (memset (memory st) dst 0
             (size_t_mul b (sizeof b (TWriteBarrierPtr T)) count))
          (barrier_log st).
End Members.

End WriteBarrierPtr.

(** [CopyArray<Allocator, T, PolicyType>(NoWriteBarrierPtr<T>& dst, ...)]:
    the wrappers hold the addresses of the arrays. *)
Definition CopyArray_NoWriteBarrierPtr
    (b : Build) (A : Allocator) (T : CType) (PolicyType : CType)
    (st : State) (dst dstCount src srcCount : Z) : State :=
  CopyArray b A T PolicyType st
    (NoWriteBarrierPtr.get b st dst) dstCount (NoWriteBarrierPtr.get b st src) srcCount.

(** [CopyArray<Allocator, T, PolicyType>(WriteBarrierPtr<T>& dst, ...)]. *)
Definition CopyArray_WriteBarrierPtr
    (b : Build) (A : Allocator) (T : CType) (PolicyType : CType)
    (st : State) (dst dstCount src srcCount : Z) : State :=
  CopyArray b A T PolicyType st
    (WriteBarrierPtr.get b st dst) dstCount (WriteBarrierPtr.get b st src) srcCount.

(** The assignment of a pointer member declared through
    [WriteBarrierPtrTraits]. *)
Definition Ptr_assign (b : Build) (c : PtrClass) (st : State) (this ptr : Z) : State :=
  match c with
  | UseWriteBarrierPtr => WriteBarrierPtr.assign b st this ptr
  | UseNoWriteBarrierPtr => NoWriteBarrierPtr.assign b st this ptr
  end.

(** ** The elementwise equivalents of the array operations *)


(** The specification's elementwise equivalent of an array operation: [n]
    single-element assignments [dst[i] = src[i]], one after the other, for
    [i] from [0] up. *)
Fixpoint assign_elements
    (assign1 : State -> Z -> Z -> State) (elem : Z) (n : nat)
    (st : State) (dst src : Z) : State :=
  match n with
  | O => st
  | S n' => assign_elements assign1 elem n' (assign1 st dst src) (dst + elem) (src + elem)
  end.

(** The same assignments for [i] from [n - 1] down. *)
Fixpoint assign_elements_down
    (assign1 : State -> Z -> Z -> State) (elem : Z) (n : nat)
    (st : State) (dst src : Z) : State :=
  match n with
  | O => st
  | S n' =>
      assign_elements_down assign1 elem n'
        (assign1 st (dst + elem * Z.of_nat n') (src + elem * Z.of_nat n')) dst src
  end.


(** ** [min] and [max] on [NoWriteBarrierField<T>] *)

(** [operator<] and [operator>] of the underlying type. *)
Class Ordered (T : Type) : Type := {
  less : T -> T -> bool;
  greater : T -> T -> bool
}.

(** An ordered type: [>] is [<] with the operands exchanged, and [<] is a
    strict total order. *)
Class StrictTotalOrder (T : Type) `{Ordered T} : Prop := {
  greater_less : forall a b : T, greater a b = less b a;
  less_irrefl : forall a : T, less a a = false;
  less_trans : forall a b c : T, less a b = true -> less b c = true -> less a c = true;
  less_total : forall a b : T, less a b = false -> less b a = false -> a = b
}.

#[export] Instance Z_Ordered : Ordered Z := {| less := Z.ltb; greater := Z.gtb |}.

Section MinMax.
Context {T : Type} `{Ordered T}.

Import NoWriteBarrierField.

(** [min(const T& a, const NoWriteBarrierField<T>& b)]. *)
Definition min_T_Field (a : T) (b : t T) : T :=
  if less a (to_T b) then a else to_T b.

(** [min(const NoWriteBarrierField<T>& a, const T& b)]. *)
Definition min_Field_T (a : t T) (b : T) : T :=
  if less (to_T a) b then to_T a else b.

(** [min(const NoWriteBarrierField<T>& a, const NoWriteBarrierField<T>& b)]. *)
Definition min_Field_Field (a b : t T) : T :=
  if less (to_T a) (to_T b) then to_T a else to_T b.

(** [max(const NoWriteBarrierField<T>& a, const T& b)]. *)
Definition max_Field_T (a : t T) (b : T) : T :=
  if greater (to_T a) b then to_T a else b.

(** [max(const T& a, const NoWriteBarrierField<T>& b)]. *)
Definition max_T_Field (a : T) (b : t T) : T :=
  if greater a (to_T b) then a else to_T b.

(** [max(const NoWriteBarrierField<T>& a, const NoWriteBarrierField<T>& b)]. *)
Definition max_Field_Field (a b : t T) : T :=
  if greater (to_T a) (to_T b) then to_T a else to_T b.

(** The comparison on values that are not wrapped. *)
Definition plain_min (a b : T) : T := if less a b then a else b.
Definition plain_max (a b : T) : T := if greater a b then a else b.

(** [a <= b] as [!(b < a)]. *)
Definition not_above (a b : T) : bool := negb (less b a).
End MinMax.

(** ** What an assignment does to a pointer slot *)

(** [m'] is [m] outside the pointer slot at [this]. *)
Definition only_slot_written (b : Build) (m m' : Mem) (this : Z) : Prop :=
  forall x, ~ (this <= x < this + Z.of_nat (pointer_bytes b)) -> m' x = m x.

(** From [st] to [st']: the slot at [this], and nothing else, was written
    and holds [bits], and the barrier was called once, on [this], when the
    slot already held [bits]. *)
Definition stores_then_notifies_once
    (b : Build) (st st' : State) (this : Z) (bits : list byte) : Prop :=
  load_bytes (memory st') this (pointer_bytes b) = bits /\
  only_slot_written b (memory st) (memory st') this /\
  exists e,
    barrier_log st' = barrier_log st ++ [e] /\
    event_call e = WriteBarrier_at this /\
    load_bytes (event_memory e) this (pointer_bytes b) = bits.

(** From [st] to [st']: the slot at [this], and nothing else, was written
    and holds [bits], and the barrier was not called. *)
Definition stores_without_notifying
    (b : Build) (st st' : State) (this : Z) (bits : list byte) : Prop :=
  load_bytes (memory st') this (pointer_bytes b) = bits /\
  only_slot_written b (memory st) (memory st') this /\
  barrier_log st' = barrier_log st.

(** Two ranges of [n] bytes that do not meet. *)
Definition disjoint_ranges (dst src n : Z) : Prop :=
  dst + n <= src \/ src + n <= dst.

(** The range at [dst] does not start inside the range at [src], above its
    first byte. *)
Definition no_forward_overlap (dst src n : Z) : Prop :=
  dst <= src \/ src + n <= dst.

(** The barrier calls an array operation makes: one under
    [_write_barrier_policy] when the barrier is compiled in, none
    otherwise. *)
Definition array_barrier_calls (b : Build) (P : Policy) : nat :=
  match P with
  | _write_barrier_policy => if RECYCLER_WRITE_BARRIER b then 1%nat else 0%nat
  | _no_write_barrier_policy => 0%nat
  end.

(** A memory that tells its bytes apart, and a state with it. *)
Definition counting_memory : Mem := fun a => byte.of_Z a.
Definition counting_state : State := mkState counting_memory [].

(** The assignment of a [WriteBarrierPtr] to such a member:
    [operator=(WriteBarrierPtr const&)], or the conversion of the source to
    [T*] followed by [NoWriteBarrierPtr]'s [operator=(T * value)]. *)
Definition Ptr_assign_from
    (b : Build) (c : PtrClass) (st : State) (this other : Z) : State :=
  match c with
  | UseWriteBarrierPtr => WriteBarrierPtr.assign_from b st this other
  | UseNoWriteBarrierPtr =>
      NoWriteBarrierPtr.assign b st this (WriteBarrierPtr.get b st other)
  end.

(** ** The specification's statements, for comparison with the header *)

(** The specification's shape classifier: a pointer is [RawPointer], a
    [WriteBarrierPtr] is [GuardedWrapper], every other type is [Opaque]. *)
Inductive ElementShape : Type :=
| RawPointer
| GuardedWrapper
| Opaque.

Definition spec_classify (T : CType) : ElementShape :=
  match T with
  | TPointer _ => RawPointer
  | TWriteBarrierPtr _ => GuardedWrapper
  | _ => Opaque
  end.

(** The specification's general rule: where no specialisation applies, the
    barrier is required exactly for the tracing allocator type with a
    [RawPointer] or [GuardedWrapper] element. *)
Definition spec_resolution (b : Build) (A : Allocator) (T : CType) : Prop :=
  AllocatorWriteBarrierPolicy_specialized A T = None ->
  (AllocatorWriteBarrierPolicy b A T = _write_barrier_policy <->
   AllocatorInfo_AllocatorType b A = Recycler /\
   (spec_classify T = RawPointer \/ spec_classify T = GuardedWrapper)).

(** The specification's overrides: the leaf allocator never requires the
    barrier, and neither does [int] under the non-leaf allocator. *)
Definition spec_overrides (b : Build) : Prop :=
  (forall T, AllocatorWriteBarrierPolicy b RecyclerLeafAllocator T
             = _no_write_barrier_policy) /\
  AllocatorWriteBarrierPolicy b RecyclerNonLeafAllocator TInt = _no_write_barrier_policy.

(** The specification's assignment to a [WriteBarrierPtr<T>] allocated with
    [A]: one barrier call after the store when the policy requires it, none
    when it does not. *)
Definition spec_assignment
    (b : Build) (A : Allocator) (T : CType) (st : State) (this p : Z) : Prop :=
  match AllocatorWriteBarrierPolicy b A (TPointer T) with
  | _write_barrier_policy =>
      stores_then_notifies_once b st (WriteBarrierPtr.assign b st this p) this
        (le_split (pointer_bytes b) p)
  | _no_write_barrier_policy =>
      stores_without_notifying b st (WriteBarrierPtr.assign b st this p) this
        (le_split (pointer_bytes b) p)
  end.

(** [MoveArray] against one fixed order of the assignments: the destination
    range as [count] guarded assignments leave it, always in ascending or
    always in descending order. *)
Definition MoveArray_as_ascending
    (b : Build) (T : CType) (st : State) (dst src count : Z) : Prop :=
  let elem := sizeof b (TWriteBarrierPtr T) in
  load_bytes (memory (WriteBarrierPtr.MoveArray b T st dst src count))
    dst (Z.to_nat (elem * count))
  = load_bytes
      (memory (assign_elements (WriteBarrierPtr.assign_from b) elem (Z.to_nat count)
                 st dst src))
      dst (Z.to_nat (elem * count)).

Definition MoveArray_as_descending
    (b : Build) (T : CType) (st : State) (dst src count : Z) : Prop :=
  let elem := sizeof b (TWriteBarrierPtr T) in
  load_bytes (memory (WriteBarrierPtr.MoveArray b T st dst src count))
    dst (Z.to_nat (elem * count))
  = load_bytes
      (memory (assign_elements_down (WriteBarrierPtr.assign_from b) elem (Z.to_nat count)
                 st dst src))
      dst (Z.to_nat (elem * count)).


(** ** Further statements about the wrappers and the array operations *)

(** A value that a pointer of the build can hold. *)
Definition pointer_value (b : Build) (p : Z) : Prop :=
  0 <= p < size_t_modulus b.

(** Every byte in which [m'] differs from [m] lies in the [n] bytes from
    [a]. *)
Definition changed_within (m m' : Mem) (a n : Z) : Prop :=
  forall x, m' x <> m x -> a <= x < a + n.

(** [NoWriteBarrierSet(nullptr)] on [n] elements, one after the other. *)
Fixpoint clear_elements (b : Build) (n : nat) (st : State) (dst : Z) : State :=
  match n with
  | O => st
  | S n' =>
      clear_elements b n' (WriteBarrierPtr.NoWriteBarrierSet b st dst 0)
        (dst + Z.of_nat (pointer_bytes b))
  end.

(** From [st] to [st']: only bytes among the [n] from [a] were written, and
    the barrier was called once, over those [n] bytes, after the writes. *)
Definition written_and_notified (st st' : State) (a n : Z) : Prop :=
  changed_within (memory st) (memory st') a n /\
  exists e,
    barrier_calls_since st st' = [e] /\
    event_call e = WriteBarrier_over a n /\
    event_memory e = memory st'.

(** From [st] to [st']: the first [srcCount] elements of [elem] bytes at
    [dst] hold the bytes that the elements at [src] held, no byte outside
    them was written, and the barrier was called [calls] times, each time
    over the [dstCount] elements at [dst] and after the copy. *)
Definition copied_and_notified
    (st st' : State) (elem dst dstCount src srcCount : Z) (calls : nat) : Prop :=
  (forall i, 0 <= i < srcCount ->
     load_bytes (memory st') (dst + elem * i) (Z.to_nat elem)
     = load_bytes (memory st) (src + elem * i) (Z.to_nat elem)) /\
  changed_within (memory st) (memory st') dst (elem * srcCount) /\
  map event_call (barrier_calls_since st st')
  = repeat (WriteBarrier_over dst (elem * dstCount)) calls /\
  (forall e, In e (barrier_calls_since st st') -> event_memory e = memory st').

(** * Properties *)

(** ** Memory *)

Section MemoryFacts.
Implicit Types (m : Mem) (a x n : Z) (bs : list byte).

Lemma in_range_true a n x : in_range a n x = true <-> a <= x < a + n.
Proof. unfold in_range. rewrite andb_true_iff, Z.leb_le, Z.ltb_lt. tauto. Qed.

Lemma in_range_false a n x : in_range a n x = false <-> ~ (a <= x < a + n).
Proof.
  rewrite <- in_range_true. destruct (in_range a n x); split; congruence.
Qed.

Lemma length_load_bytes m a k : length (load_bytes m a k) = k.
Proof. unfold load_bytes. now rewrite length_map, length_seq. Qed.

Lemma nth_load_bytes m a k i d :
  (i < k)%nat -> nth i (load_bytes m a k) d = m (a + Z.of_nat i).
Proof.
  intros Hi. unfold load_bytes.
  rewrite (nth_indep _ d (m (a + Z.of_nat 0))) by now rewrite length_map, length_seq.
  rewrite (map_nth (fun j => m (a + Z.of_nat j))), seq_nth by assumption.
  reflexivity.
Qed.

Lemma store_bytes_inside m a bs x :
  a <= x < a + Z.of_nat (length bs) ->
  store_bytes m a bs x = nth (Z.to_nat (x - a)) bs x00.
Proof.
  intros Hx. unfold store_bytes.
  now rewrite (proj2 (in_range_true _ _ _) Hx).
Qed.

Lemma store_bytes_outside m a bs x :
  ~ (a <= x < a + Z.of_nat (length bs)) -> store_bytes m a bs x = m x.
Proof.
  intros Hx. unfold store_bytes.
  now rewrite (proj2 (in_range_false _ _ _) Hx).
Qed.

Lemma load_store_bytes m a bs :
  load_bytes (store_bytes m a bs) a (length bs) = bs.
Proof.
  apply nth_ext with (d := x00) (d' := x00).
  - apply length_load_bytes.
  - intros i Hi. rewrite length_load_bytes in Hi.
    rewrite nth_load_bytes by assumption.
    rewrite store_bytes_inside by lia.
    f_equal. lia.
Qed.

Lemma store_load_bytes_at m dst src k x :
  dst <= x < dst + Z.of_nat k ->
  store_bytes m dst (load_bytes m src k) x = m (src + (x - dst)).
Proof.
  intros Hx.
  rewrite store_bytes_inside by now rewrite length_load_bytes.
  rewrite nth_load_bytes by lia.
  f_equal. lia.
Qed.

Lemma memmove_inside m dst src n x :
  dst <= x < dst + n -> memmove m dst src n x = m (src + (x - dst)).
Proof.
  intros Hx. unfold memmove. now rewrite (proj2 (in_range_true _ _ _) Hx).
Qed.

Lemma memmove_outside m dst src n x :
  ~ (dst <= x < dst + n) -> memmove m dst src n x = m x.
Proof.
  intros Hx. unfold memmove. now rewrite (proj2 (in_range_false _ _ _) Hx).
Qed.

Lemma memset_inside m dst val n x :
  dst <= x < dst + n -> memset m dst val n x = byte.of_Z val.
Proof.
  intros Hx. unfold memset. now rewrite (proj2 (in_range_true _ _ _) Hx).
Qed.

Lemma memset_outside m dst val n x :
  ~ (dst <= x < dst + n) -> memset m dst val n x = m x.
Proof.
  intros Hx. unfold memset. now rewrite (proj2 (in_range_false _ _ _) Hx).
Qed.

Lemma le_combine_zeros k : le_combine (repeat x00 k) = 0.
Proof.
  induction k as [|k IH]; [reflexivity|].
  change (le_combine (repeat x00 (S k)))
    with (Z.lor (byte.unsigned x00) (Z.shiftl (le_combine (repeat x00 k)) 8)).
  rewrite IH. reflexivity.
Qed.

Lemma load_bytes_constant m a k c :
  (forall x, a <= x < a + Z.of_nat k -> m x = c) ->
  load_bytes m a k = repeat c k.
Proof.
  intros E. apply nth_ext with (d := c) (d' := c).
  - now rewrite length_load_bytes, repeat_length.
  - intros i Hi. rewrite length_load_bytes in Hi.
    rewrite nth_load_bytes, nth_repeat by assumption.
    apply E. lia.
Qed.
End MemoryFacts.

Section PointerFacts.
Variable b : Build.
Implicit Types (m : Mem) (a p : Z).

Lemma sizeof_nonneg T : 0 <= sizeof b T.
Proof. induction T; simpl; lia. Qed.

Lemma size_t_mul_exact elem count :
  0 <= elem -> array_extent b elem count -> size_t_mul b elem count = elem * count.
Proof.
  intros He [Hc Hlt]. unfold size_t_mul. apply Z.mod_small. nia.
Qed.

Lemma load_store_pointer m a p :
  load_bytes (store_pointer b m a p) a (pointer_bytes b) = le_split (pointer_bytes b) p.
Proof.
  unfold store_pointer.
  rewrite <- (length_le_split (pointer_bytes b) p) at 2.
  apply load_store_bytes.
Qed.

Lemma load_pointer_store_pointer m a p :
  load_pointer b (store_pointer b m a p) a = p mod size_t_modulus b.
Proof.
  unfold load_pointer. rewrite load_store_pointer, le_combine_split.
  unfold size_t_modulus. f_equal. f_equal. lia.
Qed.

Lemma store_pointer_only_slot m a p :
  only_slot_written b m (store_pointer b m a p) a.
Proof.
  intros x Hx. unfold store_pointer. apply store_bytes_outside.
  now rewrite length_le_split.
Qed.

(** Storing the pointer read from [src] copies its bytes. *)
Lemma store_loaded_pointer m dst src :
  store_pointer b m dst (load_pointer b m src)
  = store_bytes m dst (load_bytes m src (pointer_bytes b)).
Proof.
  unfold store_pointer, load_pointer.
  rewrite <- (length_load_bytes m src (pointer_bytes b)) at 1.
  now rewrite split_le_combine.
Qed.
End PointerFacts.

(** ** Assignment and construction of pointer wrappers *)

Section WrapperFacts.
Variable b : Build.
Implicit Types (st : State) (this p other : Z).

Lemma NoWriteBarrierSet_stores st this p :
  stores_without_notifying b st (WriteBarrierPtr.NoWriteBarrierSet b st this p) this
    (le_split (pointer_bytes b) p).
Proof.
  split; [apply load_store_pointer|].
  split; [apply store_pointer_only_slot | reflexivity].
Qed.

Lemma WriteBarrierSet_compiled_in st this p :
  RECYCLER_WRITE_BARRIER b = true ->
  stores_then_notifies_once b st (WriteBarrierPtr.WriteBarrierSet b st this p) this
    (le_split (pointer_bytes b) p).
Proof.
  intros Hflag. unfold WriteBarrierPtr.WriteBarrierSet. rewrite Hflag.
  split; [apply load_store_pointer|].
  split; [apply store_pointer_only_slot|].
  eexists. split; [reflexivity|].
  split; [reflexivity | apply load_store_pointer].
Qed.

Lemma WriteBarrierSet_compiled_out st this p :
  RECYCLER_WRITE_BARRIER b = false ->
  WriteBarrierPtr.WriteBarrierSet b st this p
  = WriteBarrierPtr.NoWriteBarrierSet b st this p.
Proof.
  intros Hflag. unfold WriteBarrierPtr.WriteBarrierSet. now rewrite Hflag.
Qed.

(** The bits of a pointer that was read from a slot are the bits of the
    slot. *)
Lemma le_split_loaded_pointer st other :
  le_split (pointer_bytes b) (WriteBarrierPtr.get b st other)
  = load_bytes (memory st) other (pointer_bytes b).
Proof.
  unfold WriteBarrierPtr.get, load_pointer.
  rewrite <- (length_load_bytes (memory st) other (pointer_bytes b)) at 1.
  apply split_le_combine.
Qed.

Lemma memory_WriteBarrierSet st this p :
  memory (WriteBarrierPtr.WriteBarrierSet b st this p)
  = store_pointer b (memory st) this p.
Proof.
  unfold WriteBarrierPtr.WriteBarrierSet.
  destruct (RECYCLER_WRITE_BARRIER b); reflexivity.
Qed.

Lemma barrier_log_WriteBarrierSet st this p :
  length (barrier_log (WriteBarrierPtr.WriteBarrierSet b st this p))
  = (length (barrier_log st) + (if RECYCLER_WRITE_BARRIER b then 1 else 0))%nat.
Proof.
  unfold WriteBarrierPtr.WriteBarrierSet.
  destruct (RECYCLER_WRITE_BARRIER b); simpl.
  - now rewrite length_app.
  - lia.
Qed.
End WrapperFacts.

Lemma barrier_calls_since_same (st st' : State) :
  barrier_log st' = barrier_log st -> barrier_calls_since st st' = [].
Proof.
  intros E. unfold barrier_calls_since. rewrite E. apply skipn_all.
Qed.

Lemma barrier_calls_since_one (st st' : State) (e : BarrierEvent) :
  barrier_log st' = barrier_log st ++ [e] -> barrier_calls_since st st' = [e].
Proof.
  intros E. unfold barrier_calls_since. rewrite E.
  rewrite skipn_app, skipn_all, Nat.sub_diag. reflexivity.
Qed.

(** C1, as amended.  A pointer member declared through
    [WriteBarrierPtrTraits] is a [WriteBarrierPtr] under
    [_write_barrier_policy] and a [NoWriteBarrierPtr] otherwise.  Assigning
    to it, from a raw pointer or from a [WriteBarrierPtr], stores the bits
    of the pointer in the member's slot; the barrier is then called exactly
    once, on the member's own address and with the new bits already in the
    slot, when the policy is [_write_barrier_policy] and
    [RECYCLER_WRITE_BARRIER] is defined, and is not called at all
    otherwise. *)
Theorem assignment_notifies_by_policy
    (b : Build) (T : CType) (A : Allocator) (st : State) (this p other : Z) :
  let member := WriteBarrierPtrTraits b T A in
  let bits := le_split (pointer_bytes b) p in
  let other_bits := load_bytes (memory st) other (pointer_bytes b) in
  match AllocatorWriteBarrierPolicy b A (TPointer T), RECYCLER_WRITE_BARRIER b with
  | _write_barrier_policy, true =>
      member = UseWriteBarrierPtr /\
      stores_then_notifies_once b st (Ptr_assign b member st this p) this bits /\
      stores_then_notifies_once b st (Ptr_assign_from b member st this other) this other_bits
  | _write_barrier_policy, false =>
      member = UseWriteBarrierPtr /\
      stores_without_notifying b st (Ptr_assign b member st this p) this bits /\
      stores_without_notifying b st (Ptr_assign_from b member st this other) this other_bits
  | _no_write_barrier_policy, _ =>
      member = UseNoWriteBarrierPtr /\
      stores_without_notifying b st (Ptr_assign b member st this p) this bits /\
      stores_without_notifying b st (Ptr_assign_from b member st this other) this other_bits
  end.
Proof.
  intros member bits other_bits. subst member bits other_bits.
  unfold WriteBarrierPtrTraits.
  destruct (AllocatorWriteBarrierPolicy b A (TPointer T)) eqn:HP;
    [destruct (RECYCLER_WRITE_BARRIER b) eqn:Hflag|];
    cbn [_WriteBarrierPtrPolicy Ptr_assign Ptr_assign_from];
    (split; [reflexivity|]).
  - unfold WriteBarrierPtr.assign, WriteBarrierPtr.assign_from.
    rewrite <- le_split_loaded_pointer.
    split; apply WriteBarrierSet_compiled_in; assumption.
  - unfold WriteBarrierPtr.assign, WriteBarrierPtr.assign_from.
    rewrite !WriteBarrierSet_compiled_out by assumption.
    rewrite <- le_split_loaded_pointer.
    split; apply NoWriteBarrierSet_stores.
  - rewrite <- le_split_loaded_pointer.
    split;
      (split; [apply load_store_pointer|];
       split; [apply store_pointer_only_slot | reflexivity]).
Qed.

(** C1, as the specification states it, fails on [WriteBarrierPtr]'s own
    [operator=], which does not look at the policy: with the barrier
    compiled out it makes no call under [_write_barrier_policy], and with
    the barrier compiled in it makes its call under
    [_no_write_barrier_policy] too. *)
Lemma spec_assignment_fails :
  ~ spec_assignment plain_build Recycler TInt counting_state 16 4096 /\
  ~ spec_assignment barrier_build (OtherAllocator "HeapAllocator") TInt
      counting_state 16 4096.
Proof.
  split.
  - intros [_ [_ [e [Hlog _]]]]. vm_compute in Hlog.
    destruct (barrier_log counting_state); discriminate.
  - intros [_ [_ Hlog]]. vm_compute in Hlog. discriminate.
Qed.

(** C6.  Constructing a [WriteBarrierPtr] from a raw pointer stores the
    pointer and does not call the barrier, whatever the build and whatever
    allocator the object lives in: the constructor takes no policy. *)
Theorem construct_never_notifies (b : Build) (st : State) (this p : Z) :
  let st' := WriteBarrierPtr.construct b st this p in
  stores_without_notifying b st st' this (le_split (pointer_bytes b) p) /\
  WriteBarrierPtr.get b st' this = p mod size_t_modulus b /\
  barrier_calls_since st st' = [].
Proof.
  cbv zeta. split; [apply NoWriteBarrierSet_stores|].
  split; [apply load_pointer_store_pointer|].
  apply barrier_calls_since_same. reflexivity.
Qed.

(** C8.  When [RECYCLER_WRITE_BARRIER] is not defined, the guarded setter
    and both assignment operators of [WriteBarrierPtr] are the no-barrier
    setter, and [WriteBarrier] over an array returns the state it was
    given, for every allocator and policy type. *)
Theorem barrier_compiled_out
    (b : Build) (st : State) (this p other : Z)
    (T PolicyType : CType) (A : Allocator) (address count : Z) :
  RECYCLER_WRITE_BARRIER b = false ->
  WriteBarrierPtr.WriteBarrierSet b st this p
  = WriteBarrierPtr.NoWriteBarrierSet b st this p /\
  WriteBarrierPtr.assign b st this p
  = WriteBarrierPtr.NoWriteBarrierSet b st this p /\
  WriteBarrierPtr.assign_from b st this other
  = WriteBarrierPtr.NoWriteBarrierSet b st this (WriteBarrierPtr.get b st other) /\
  WriteBarrier b T A PolicyType st address count = st.
Proof.
  intros Hflag.
  unfold WriteBarrierPtr.assign, WriteBarrierPtr.assign_from.
  rewrite !WriteBarrierSet_compiled_out by assumption.
  repeat split.
  unfold WriteBarrier, _ArrayWriteBarrier. rewrite Hflag.
  destruct (AllocatorWriteBarrierPolicy b A PolicyType); reflexivity.
Qed.

Lemma barrier_compiled_out_witness :
  RECYCLER_WRITE_BARRIER plain_build = false /\
  WriteBarrierPtr.WriteBarrierSet plain_build counting_state 16 4096
  = WriteBarrierPtr.NoWriteBarrierSet plain_build counting_state 16 4096 /\
  WriteBarrier plain_build (TPointer TInt) Recycler (TPointer TInt) counting_state 16 2
  = counting_state.
Proof.
  split; [reflexivity|].
  pose proof (barrier_compiled_out plain_build counting_state 16 4096 24
                (TPointer TInt) (TPointer TInt) Recycler 16 2 eq_refl)
    as [Hset [_ [_ Hbarrier]]].
  split; [exact Hset | exact Hbarrier].
Defined.

(** ** Policy resolution *)

Lemma _AndWriteBarrierPolicy_required (P1 P2 : Policy) :
  _AndWriteBarrierPolicy P1 P2 = _write_barrier_policy <->
  P1 = _write_barrier_policy /\ P2 = _write_barrier_policy.
Proof. destruct P1, P2; simpl; intuition congruence. Qed.

Lemma _AllocatorTypeWriteBarrierPolicy_required (AllocatorType : Allocator) :
  _AllocatorTypeWriteBarrierPolicy AllocatorType = _write_barrier_policy <->
  AllocatorType = Recycler.
Proof. destruct AllocatorType; simpl; intuition congruence. Qed.

Lemma TypeWriteBarrierPolicy_required (T : CType) :
  TypeWriteBarrierPolicy T = _write_barrier_policy <->
  spec_classify T = RawPointer \/ spec_classify T = GuardedWrapper \/
  T = TPolicyTag _write_barrier_policy.
Proof.
  destruct T as [| | | | | |[|]]; simpl; intuition congruence.
Qed.

Lemma Policy_not_required (P : Policy) :
  P <> _write_barrier_policy -> P = _no_write_barrier_policy.
Proof. destruct P; congruence. Qed.

(** C2, as amended.  Where no specialisation of
    [AllocatorWriteBarrierPolicy] applies, the barrier is required exactly
    when the allocator's type is [Recycler] and the element type is a raw
    pointer, a [WriteBarrierPtr] or the tag [_write_barrier_policy] itself;
    every other element type, and every allocator of another type, resolves
    to [_no_write_barrier_policy]. *)
Theorem general_rule (b : Build) (A : Allocator) (T : CType) :
  AllocatorWriteBarrierPolicy_specialized A T = None ->
  (AllocatorWriteBarrierPolicy b A T = _write_barrier_policy <->
   AllocatorInfo_AllocatorType b A = Recycler /\
   (spec_classify T = RawPointer \/ spec_classify T = GuardedWrapper \/
    T = TPolicyTag _write_barrier_policy)) /\
  (AllocatorInfo_AllocatorType b A <> Recycler ->
   AllocatorWriteBarrierPolicy b A T = _no_write_barrier_policy) /\
  (spec_classify T = Opaque -> T <> TPolicyTag _write_barrier_policy ->
   AllocatorWriteBarrierPolicy b A T = _no_write_barrier_policy).
Proof.
  intros Hspec.
  assert (Hiff : AllocatorWriteBarrierPolicy b A T = _write_barrier_policy <->
                 AllocatorInfo_AllocatorType b A = Recycler /\
                 (spec_classify T = RawPointer \/ spec_classify T = GuardedWrapper \/
                  T = TPolicyTag _write_barrier_policy)).
  { unfold AllocatorWriteBarrierPolicy. rewrite Hspec.
    unfold AllocatorWriteBarrierPolicy_primary.
    rewrite _AndWriteBarrierPolicy_required,
      _AllocatorTypeWriteBarrierPolicy_required, TypeWriteBarrierPolicy_required.
    reflexivity. }
  split; [exact Hiff|]. split.
  - intros Hother. apply Policy_not_required. rewrite Hiff. tauto.
  - intros Hopaque Htag. apply Policy_not_required. rewrite Hiff.
    intros [_ [HT | [HT | HT]]]; congruence.
Qed.

Lemma general_rule_witness :
  AllocatorWriteBarrierPolicy_specialized Recycler (TPointer TInt) = None /\
  AllocatorWriteBarrierPolicy barrier_build Recycler (TPointer TInt)
  = _write_barrier_policy.
Proof.
  split; [reflexivity|].
  apply (proj1 (general_rule barrier_build Recycler (TPointer TInt) eq_refl)).
  split; [reflexivity | left; reflexivity].
Defined.

(** C2, as the specification states it, fails for the tag
    [_write_barrier_policy] used as policy type: it is neither a pointer nor
    a [WriteBarrierPtr], and [TypeWriteBarrierPolicy] is specialised for
    it. *)
Lemma spec_resolution_fails :
  ~ spec_resolution barrier_build Recycler (TPolicyTag _write_barrier_policy).
Proof.
  intros Hclaim.
  destruct (proj1 (Hclaim eq_refl) eq_refl) as [_ [Hshape | Hshape]];
    discriminate Hshape.
Qed.

(** C4, as amended.  The specialisations of [AllocatorWriteBarrierPolicy]
    are selected before the primary template: under
    [RecyclerNonLeafAllocator] every element type requires the barrier, also
    one for which the primary template gives [_no_write_barrier_policy],
    except [int], which is pinned to [_no_write_barrier_policy].  No other
    allocator has a specialisation; [RecyclerLeafAllocator] in particular is
    resolved by the primary template, from its allocator type and the
    element type. *)
Theorem specializations_take_precedence
    (b : Build) (T : CType) (name : string) (size : nat) :
  AllocatorWriteBarrierPolicy b RecyclerNonLeafAllocator T
  = match T with
    | TInt => _no_write_barrier_policy
    | _ => _write_barrier_policy
    end /\
  AllocatorWriteBarrierPolicy b RecyclerNonLeafAllocator TInt = _no_write_barrier_policy /\
  (AllocatorWriteBarrierPolicy_primary b RecyclerNonLeafAllocator (TObject name size)
   = _no_write_barrier_policy /\
   AllocatorWriteBarrierPolicy b RecyclerNonLeafAllocator (TObject name size)
   = _write_barrier_policy) /\
  AllocatorWriteBarrierPolicy_specialized Recycler T = None /\
  AllocatorWriteBarrierPolicy_specialized RecyclerLeafAllocator T = None /\
  AllocatorWriteBarrierPolicy_specialized (OtherAllocator name) T = None /\
  AllocatorWriteBarrierPolicy b RecyclerLeafAllocator T
  = _AndWriteBarrierPolicy
      (_AllocatorTypeWriteBarrierPolicy
         (AllocatorInfo_AllocatorType b RecyclerLeafAllocator))
      (TypeWriteBarrierPolicy T).
Proof.
  split; [destruct T; reflexivity|].
  split; [reflexivity|].
  split.
  - split; [|reflexivity].
    unfold AllocatorWriteBarrierPolicy_primary.
    destruct (_AllocatorTypeWriteBarrierPolicy _); reflexivity.
  - repeat split.
Qed.

(** A leaf allocator whose allocator type is [Recycler] requires the
    barrier for every pointer element. *)
Lemma tracing_leaf_pointer (b : Build) (T : CType) :
  AllocatorInfo_AllocatorType b RecyclerLeafAllocator = Recycler ->
  AllocatorWriteBarrierPolicy b RecyclerLeafAllocator (TPointer T) = _write_barrier_policy.
Proof.
  intros Htracing.
  unfold AllocatorWriteBarrierPolicy, AllocatorWriteBarrierPolicy_primary.
  simpl. now rewrite Htracing.
Qed.

(** C4, as the specification states it, fails for the leaf allocator: with
    the allocator types of the header's comment, a pointer element under
    [RecyclerLeafAllocator] requires the barrier. *)
Lemma spec_overrides_fails : ~ spec_overrides barrier_build.
Proof.
  intros [Hleaf _]. specialize (Hleaf (TPointer TInt)).
  rewrite tracing_leaf_pointer in Hleaf by reflexivity. discriminate Hleaf.
Qed.

(** ** Array operations *)

Section ArrayFacts.
Variable b : Build.
Implicit Types (st : State) (dst src count x : Z) (T : CType).

Lemma memory_WriteBarrier T A PolicyType st address count :
  memory (WriteBarrier b T A PolicyType st address count) = memory st.
Proof.
  unfold WriteBarrier, _ArrayWriteBarrier.
  destruct (AllocatorWriteBarrierPolicy b A PolicyType); [|reflexivity].
  destruct (RECYCLER_WRITE_BARRIER b); reflexivity.
Qed.

Lemma barrier_calls_WriteBarrier T A PolicyType st address count :
  length (barrier_calls_since st (WriteBarrier b T A PolicyType st address count))
  = array_barrier_calls b (AllocatorWriteBarrierPolicy b A PolicyType).
Proof.
  unfold WriteBarrier, _ArrayWriteBarrier, array_barrier_calls.
  destruct (AllocatorWriteBarrierPolicy b A PolicyType).
  - destruct (RECYCLER_WRITE_BARRIER b).
    + erewrite barrier_calls_since_one by reflexivity. reflexivity.
    + now rewrite barrier_calls_since_same.
  - now rewrite barrier_calls_since_same.
Qed.

(** The barrier over an array is one call over the whole range. *)
Lemma WriteBarrier_required_call T A PolicyType st address count :
  RECYCLER_WRITE_BARRIER b = true ->
  AllocatorWriteBarrierPolicy b A PolicyType = _write_barrier_policy ->
  map event_call
    (barrier_calls_since st (WriteBarrier b T A PolicyType st address count))
  = [WriteBarrier_over address (size_t_mul b (sizeof b T) count)].
Proof.
  intros Hflag HP. unfold WriteBarrier, _ArrayWriteBarrier.
  rewrite HP, Hflag.
  erewrite barrier_calls_since_one by reflexivity. reflexivity.
Qed.

Lemma memory_assign_from st dst src :
  memory (WriteBarrierPtr.assign_from b st dst src)
  = store_bytes (memory st) dst (load_bytes (memory st) src (pointer_bytes b)).
Proof.
  unfold WriteBarrierPtr.assign_from.
  rewrite memory_WriteBarrierSet. apply store_loaded_pointer.
Qed.




Lemma pointer_extent_exact T count :
  array_extent b (sizeof b (TWriteBarrierPtr T)) count ->
  size_t_mul b (sizeof b (TWriteBarrierPtr T)) count
  = Z.of_nat (pointer_bytes b) * Z.of_nat (Z.to_nat count).
Proof.
  intros Hext. rewrite size_t_mul_exact by (apply sizeof_nonneg || assumption).
  destruct Hext as [Hcount _]. simpl. rewrite Z2Nat.id by assumption. reflexivity.
Qed.
End ArrayFacts.

(** C5.  [ClearArray] over an array of [count] [WriteBarrierPtr] elements
    sets every byte of the array to zero, so that every element reads as
    the null pointer, leaves the rest of the memory alone, and does not
    call the barrier: it takes no allocator and no policy, and the build
    makes no difference. *)
Theorem ClearArray_zero_fills
    (b : Build) (T : CType) (st : State) (dst count : Z) :
  array_extent b (sizeof b (TWriteBarrierPtr T)) count ->
  let st' := WriteBarrierPtr.ClearArray b T st dst count in
  let elem := sizeof b (TWriteBarrierPtr T) in
  (forall x, dst <= x < dst + elem * count -> memory st' x = x00) /\
  (forall i, 0 <= i < count ->
     load_bytes (memory st') (dst + elem * i) (pointer_bytes b)
     = repeat x00 (pointer_bytes b) /\
     WriteBarrierPtr.get b st' (dst + elem * i) = 0) /\
  (forall x, ~ (dst <= x < dst + elem * count) -> memory st' x = memory st x) /\
  barrier_log st' = barrier_log st /\
  barrier_calls_since st st' = [].
Proof.
  intros Hext st' elem.
  assert (Hsize : size_t_mul b elem count = elem * count)
    by (apply size_t_mul_exact; [apply sizeof_nonneg | assumption]).
  assert (Hzero : forall x, dst <= x < dst + elem * count -> memory st' x = x00).
  { intros x Hx. subst st'. unfold WriteBarrierPtr.ClearArray. cbn [memory].
    fold elem. rewrite Hsize. rewrite memset_inside by assumption. reflexivity. }
  split; [exact Hzero|]. split; [|split; [|split]].
  - intros i Hi.
    assert (Hslot : load_bytes (memory st') (dst + elem * i) (pointer_bytes b)
                    = repeat x00 (pointer_bytes b)).
    { apply load_bytes_constant. intros x Hx. apply Hzero.
      subst elem. simpl in *. nia. }
    split; [exact Hslot|].
    unfold WriteBarrierPtr.get, load_pointer. rewrite Hslot.
    apply le_combine_zeros.
  - intros x Hx. subst st'. unfold WriteBarrierPtr.ClearArray. cbn [memory].
    fold elem. rewrite Hsize. apply memset_outside. assumption.
  - reflexivity.
  - apply barrier_calls_since_same. reflexivity.
Qed.

Lemma ClearArray_zero_fills_witness :
  array_extent barrier_build (sizeof barrier_build (TWriteBarrierPtr TInt)) 3 /\
  WriteBarrierPtr.get barrier_build
    (WriteBarrierPtr.ClearArray barrier_build TInt counting_state 16 3) (16 + 8 * 2) = 0 /\
  barrier_log (WriteBarrierPtr.ClearArray barrier_build TInt counting_state 16 3)
  = barrier_log counting_state.
Proof.
  assert (Hext : array_extent barrier_build
                   (sizeof barrier_build (TWriteBarrierPtr TInt)) 3)
    by (split; [lia | reflexivity]).
  split; [exact Hext|].
  destruct (ClearArray_zero_fills barrier_build TInt counting_state 16 3 Hext)
    as [_ [Hslots [_ [Hlog _]]]].
  split; [|exact Hlog].
  apply (Hslots 2). lia.
Defined.


Lemma disjoint_no_forward_overlap (dst src n : Z) :
  0 <= n -> disjoint_ranges dst src n -> no_forward_overlap dst src n.
Proof. unfold disjoint_ranges, no_forward_overlap. lia. Qed.









(** No single order serves every pair of ranges: moving two pointers up by
    one element differs from two assignments in ascending order, and moving
    them down by one element differs from two assignments in descending
    order. *)
Lemma MoveArray_order_follows_direction :
  ~ MoveArray_as_ascending barrier_build TInt counting_state 8 0 2 /\
  ~ MoveArray_as_descending barrier_build TInt counting_state 0 8 2.
Proof.
  split; intros Hclaim; vm_compute in Hclaim; discriminate Hclaim.
Qed.

(** ** Addresses of the wrapped values *)




(** C10.  [operator&] of a [NoWriteBarrierPtr] that is not const, and
    [operator&] and [operator T&] of a [NoWriteBarrierField] that is not
    const, give the address of the wrapped value for writing: a write
    through it is what the wrapper's assignment operator does, the value is
    read back from the wrapper, and no barrier is called.  [operator&] of a
    [WriteBarrierPtr] gives an address that cannot be written through,
    const object or not. *)
Theorem companion_wrappers_expose_value
    (b : Build) (T : CType) (st : State) (this p : Z) (v : list byte)
    (const_object : bool) :
  NoWriteBarrierPtr.operator_addr false this = mkAddress this true /\
  write_pointer_through b (NoWriteBarrierPtr.operator_addr false this) p st
  = Some (NoWriteBarrierPtr.assign b st this p) /\
  load_bytes (memory (NoWriteBarrierPtr.assign b st this p)) this (pointer_bytes b)
  = le_split (pointer_bytes b) p /\
  NoWriteBarrierPtr.get b (NoWriteBarrierPtr.assign b st this p) this
  = p mod size_t_modulus b /\
  NoWriteBarrierField.operator_addr false this = mkAddress this true /\
  NoWriteBarrierField.operator_ref false this = mkAddress this true /\
  write_value_through (NoWriteBarrierField.operator_addr false this) v st
  = Some (NoWriteBarrierField.assign st this v) /\
  write_value_through (NoWriteBarrierField.operator_ref false this) v st
  = Some (NoWriteBarrierField.assign st this v) /\
  load_bytes (memory (NoWriteBarrierField.assign st this v)) this (length v) = v /\
  (Z.of_nat (length v) = sizeof b T ->
   NoWriteBarrierField.get b T (NoWriteBarrierField.assign st this v) this = v) /\
  barrier_log (NoWriteBarrierPtr.assign b st this p) = barrier_log st /\
  barrier_log (NoWriteBarrierField.assign st this v) = barrier_log st /\
  writable (WriteBarrierPtr.operator_addr const_object this) = false /\
  write_pointer_through b (WriteBarrierPtr.operator_addr const_object this) p st = None.
Proof.
  repeat split.
  - apply load_store_pointer.
  - apply load_pointer_store_pointer.
  - apply load_store_bytes.
  - intros Hsize. unfold NoWriteBarrierField.get.
    rewrite <- Hsize, Nat2Z.id. apply load_store_bytes.
Qed.

(** ** [min] and [max] *)

#[export] Instance Z_StrictTotalOrder : StrictTotalOrder Z.
Proof.
  split; cbn [less greater Z_Ordered].
  - intros a b. apply Z.gtb_ltb.
  - intros a. apply Z.ltb_irrefl.
  - intros a b c. rewrite !Z.ltb_lt. lia.
  - intros a b. rewrite !Z.ltb_ge. lia.
Qed.

Section MinMaxFacts.
Context {T : Type} `{StrictTotalOrder T}.

Lemma less_asym (a b : T) : less a b = true -> less b a = false.
Proof.
  intros Hab. destruct (less b a) eqn:Hba; [|reflexivity].
  pose proof (less_trans a b a Hab Hba) as Haa.
  rewrite less_irrefl in Haa. discriminate Haa.
Qed.

Lemma plain_min_comm (a b : T) : plain_min a b = plain_min b a.
Proof.
  unfold plain_min.
  destruct (less a b) eqn:Hab.
  - now rewrite (less_asym a b Hab).
  - destruct (less b a) eqn:Hba; [reflexivity|].
    symmetry. now apply less_total.
Qed.

Lemma plain_max_comm (a b : T) : plain_max a b = plain_max b a.
Proof.
  unfold plain_max. rewrite !greater_less.
  destruct (less b a) eqn:Hba.
  - now rewrite (less_asym b a Hba).
  - destruct (less a b) eqn:Hab; [reflexivity|].
    now apply less_total.
Qed.

Lemma plain_min_smaller (a b : T) :
  not_above (plain_min a b) a = true /\
  not_above (plain_min a b) b = true /\
  (plain_min a b = a \/ plain_min a b = b).
Proof.
  unfold plain_min, not_above.
  destruct (less a b) eqn:Hab.
  - rewrite less_irrefl, (less_asym a b Hab). auto.
  - rewrite less_irrefl, Hab. auto.
Qed.

Lemma plain_max_larger (a b : T) :
  not_above a (plain_max a b) = true /\
  not_above b (plain_max a b) = true /\
  (plain_max a b = a \/ plain_max a b = b).
Proof.
  unfold plain_max, not_above. rewrite greater_less.
  destruct (less b a) eqn:Hba.
  - rewrite less_irrefl, (less_asym b a Hba). auto.
  - rewrite less_irrefl, Hba. auto.
Qed.
End MinMaxFacts.

(** C9.  For values [a] and [b] of a type that [<] orders totally and on
    which [>] is [<] with the operands exchanged, every overload of [min]
    and [max], with either or both operands wrapped in a
    [NoWriteBarrierField], returns what the comparison of the plain values
    returns, in either order of the operands; [min] returns an operand that
    neither operand is below, [max] one that neither is above.  The
    overloads read their operands through [operator T const&] and write
    nothing: a wrapped operand still holds its value. *)
Theorem min_max_wrapped_as_plain {T : Type} `{StrictTotalOrder T} (a b : T) :
  let A := NoWriteBarrierField.wrap a in
  let B := NoWriteBarrierField.wrap b in
  (min_T_Field a B = plain_min a b /\
   min_Field_T A b = plain_min a b /\
   min_Field_Field A B = plain_min a b) /\
  (max_Field_T A b = plain_max a b /\
   max_T_Field a B = plain_max a b /\
   max_Field_Field A B = plain_max a b) /\
  (min_T_Field b A = plain_min a b /\
   min_Field_T B a = plain_min a b /\
   min_Field_Field B A = plain_min a b) /\
  (max_Field_T B a = plain_max a b /\
   max_T_Field b A = plain_max a b /\
   max_Field_Field B A = plain_max a b) /\
  (not_above (plain_min a b) a = true /\
   not_above (plain_min a b) b = true /\
   (plain_min a b = a \/ plain_min a b = b)) /\
  (not_above a (plain_max a b) = true /\
   not_above b (plain_max a b) = true /\
   (plain_max a b = a \/ plain_max a b = b)) /\
  NoWriteBarrierField.to_T A = a /\
  NoWriteBarrierField.to_T B = b.
Proof.
  intros A B.
  split; [repeat split|].
  split; [repeat split|].
  split; [repeat split; apply (plain_min_comm b a)|].
  split; [repeat split; apply (plain_max_comm b a)|].
  split; [apply plain_min_smaller|].
  split; [apply plain_max_larger|].
  split; reflexivity.
Qed.

Lemma min_max_wrapped_as_plain_witness :
  min_T_Field 7 (NoWriteBarrierField.wrap (-2)) = -2 /\
  min_Field_T (NoWriteBarrierField.wrap (-2)) 7 = -2 /\
  max_Field_Field (NoWriteBarrierField.wrap 7) (NoWriteBarrierField.wrap (-2)) = 7.
Proof.
  destruct (@min_max_wrapped_as_plain Z Z_Ordered Z_StrictTotalOrder 7 (-2))
    as [[Hmin _] [[_ [_ Hmax]] [[_ [Hmin' _]] _]]].
  split; [exact Hmin|]. split; [exact Hmin' | exact Hmax].
Defined.

(** * Further properties *)

(** ** Reading back what the setters store *)

Section ReadBack.
Variable b : Build.
Implicit Types (st : State) (m : Mem) (this other p q : Z).

Lemma size_t_modulus_pos : 0 < size_t_modulus b.
Proof. unfold size_t_modulus. apply Z.pow_pos_nonneg; lia. Qed.

Lemma load_bytes_shifted m m' a a' k :
  (forall j, 0 <= j < Z.of_nat k -> m' (a' + j) = m (a + j)) ->
  load_bytes m' a' k = load_bytes m a k.
Proof.
  intros E. unfold load_bytes. apply map_ext_in. intros i Hi.
  apply in_seq in Hi. apply E. lia.
Qed.

Lemma load_pointer_unchanged m m' a :
  only_slot_written b m m' a ->
  forall q, disjoint_ranges q a (Z.of_nat (pointer_bytes b)) ->
            load_pointer b m' q = load_pointer b m q.
Proof.
  intros Hslot q Hq. unfold load_pointer. f_equal.
  apply load_bytes_shifted. intros j Hj. apply Hslot.
  unfold disjoint_ranges in Hq. lia.
Qed.

Lemma store_loaded_bytes_same m this k x :
  store_bytes m this (load_bytes m this k) x = m x.
Proof.
  destruct (Z_le_gt_dec this x) as [Hlow|Hlow];
    [destruct (Z_lt_le_dec x (this + Z.of_nat k)) as [Hhigh|Hhigh]|].
  - rewrite store_load_bytes_at by lia. f_equal. lia.
  - apply store_bytes_outside. rewrite length_load_bytes. lia.
  - apply store_bytes_outside. rewrite length_load_bytes. lia.
Qed.

Lemma barrier_calls_WriteBarrierSet st this p :
  length (barrier_calls_since st (WriteBarrierPtr.WriteBarrierSet b st this p))
  = if RECYCLER_WRITE_BARRIER b then 1%nat else 0%nat.
Proof.
  unfold barrier_calls_since. rewrite length_skipn, barrier_log_WriteBarrierSet.
  destruct (RECYCLER_WRITE_BARRIER b); lia.
Qed.
End ReadBack.

(** X1.  A pointer value that fits a pointer is read back from the wrapper
    as it was stored, by the constructor and by every setter of
    [WriteBarrierPtr] and of [NoWriteBarrierPtr], whether the barrier is
    compiled in or not. *)
Theorem setters_read_back (b : Build) (st : State) (this p : Z) :
  pointer_value b p ->
  WriteBarrierPtr.get b (WriteBarrierPtr.construct b st this p) this = p /\
  WriteBarrierPtr.get b (WriteBarrierPtr.NoWriteBarrierSet b st this p) this = p /\
  WriteBarrierPtr.get b (WriteBarrierPtr.WriteBarrierSet b st this p) this = p /\
  WriteBarrierPtr.get b (WriteBarrierPtr.assign b st this p) this = p /\
  NoWriteBarrierPtr.get b (NoWriteBarrierPtr.construct b st this p) this = p /\
  NoWriteBarrierPtr.get b (NoWriteBarrierPtr.assign b st this p) this = p.
Proof.
  intros Hp.
  assert (Hread : forall m, load_pointer b (store_pointer b m this p) this = p).
  { intros m. rewrite load_pointer_store_pointer. now apply Z.mod_small. }
  unfold WriteBarrierPtr.assign, WriteBarrierPtr.get.
  rewrite memory_WriteBarrierSet.
  repeat split; apply Hread.
Qed.

Lemma setters_read_back_witness :
  pointer_value barrier_build 4096 /\
  WriteBarrierPtr.get barrier_build
    (WriteBarrierPtr.assign barrier_build counting_state 16 4096) 16 = 4096.
Proof.
  assert (Hp : pointer_value barrier_build 4096) by (split; [lia | reflexivity]).
  split; [exact Hp|].
  apply (setters_read_back barrier_build counting_state 16 4096 Hp).
Defined.

(** X2.  [operator=(WriteBarrierPtr const&)] gives the destination the
    value the source held, and so does the assignment of a
    [WriteBarrierPtr] to a [NoWriteBarrierPtr]; the source keeps its value
    when it is the destination itself or a slot that does not overlap
    it. *)
Theorem assign_from_copies_value (b : Build) (st : State) (this other : Z) :
  WriteBarrierPtr.get b (WriteBarrierPtr.assign_from b st this other) this
  = WriteBarrierPtr.get b st other /\
  NoWriteBarrierPtr.get b
    (Ptr_assign_from b UseNoWriteBarrierPtr st this other) this
  = WriteBarrierPtr.get b st other /\
  (this = other \/ disjoint_ranges other this (Z.of_nat (pointer_bytes b)) ->
   WriteBarrierPtr.get b (WriteBarrierPtr.assign_from b st this other) other
   = WriteBarrierPtr.get b st other).
Proof.
  assert (Hcopy : load_pointer b
                    (store_bytes (memory st) this
                       (load_bytes (memory st) other (pointer_bytes b))) this
                  = load_pointer b (memory st) other).
  { unfold load_pointer. f_equal.
    rewrite <- (length_load_bytes (memory st) other (pointer_bytes b)) at 2.
    apply load_store_bytes. }
  split; [|split].
  - unfold WriteBarrierPtr.get. rewrite memory_assign_from. exact Hcopy.
  - cbn [Ptr_assign_from]. unfold NoWriteBarrierPtr.assign, NoWriteBarrierPtr.get,
      WriteBarrierPtr.get. cbn [memory].
    rewrite store_loaded_pointer. exact Hcopy.
  - intros [Hsame | Hdisjoint]; unfold WriteBarrierPtr.get;
      rewrite memory_assign_from.
    + subst other. exact Hcopy.
    + unfold load_pointer. f_equal. apply load_bytes_shifted.
      intros j Hj. apply store_bytes_outside. rewrite length_load_bytes.
      unfold disjoint_ranges in Hdisjoint. lia.
Qed.

(** X3.  Assigning a [WriteBarrierPtr] to itself changes no byte of the
    memory, and still calls the barrier once when the barrier is compiled
    in: the operator makes no test for self-assignment. *)
Theorem self_assignment_notifies (b : Build) (st : State) (this : Z) :
  let st' := WriteBarrierPtr.assign_from b st this this in
  (forall x, memory st' x = memory st x) /\
  length (barrier_calls_since st st')
  = (if RECYCLER_WRITE_BARRIER b then 1%nat else 0%nat).
Proof.
  cbv zeta. split.
  - intros x. rewrite memory_assign_from. apply store_loaded_bytes_same.
  - apply barrier_calls_WriteBarrierSet.
Qed.

(** X4.  A setter writes its own slot only: every pointer slot that does
    not overlap the assigned one reads as before, after the guarded
    assignment, after the no-barrier setter and after the assignment of a
    [NoWriteBarrierPtr]. *)
Theorem assignment_leaves_other_slots
    (b : Build) (st : State) (this p q : Z) :
  disjoint_ranges q this (Z.of_nat (pointer_bytes b)) ->
  WriteBarrierPtr.get b (WriteBarrierPtr.assign b st this p) q
  = WriteBarrierPtr.get b st q /\
  WriteBarrierPtr.get b (WriteBarrierPtr.NoWriteBarrierSet b st this p) q
  = WriteBarrierPtr.get b st q /\
  NoWriteBarrierPtr.get b (NoWriteBarrierPtr.assign b st this p) q
  = NoWriteBarrierPtr.get b st q.
Proof.
  intros Hq.
  assert (Hframe : load_pointer b (store_pointer b (memory st) this p) q
                   = load_pointer b (memory st) q).
  { apply load_pointer_unchanged with (a := this); [|assumption].
    apply store_pointer_only_slot. }
  unfold WriteBarrierPtr.assign, WriteBarrierPtr.get.
  rewrite memory_WriteBarrierSet.
  repeat split; exact Hframe.
Qed.

Lemma assignment_leaves_other_slots_witness :
  disjoint_ranges 24 16 (Z.of_nat (pointer_bytes barrier_build)) /\
  WriteBarrierPtr.get barrier_build
    (WriteBarrierPtr.assign barrier_build counting_state 16 4096) 24
  = WriteBarrierPtr.get barrier_build counting_state 24.
Proof.
  assert (Hq : disjoint_ranges 24 16 (Z.of_nat (pointer_bytes barrier_build)))
    by (right; simpl; lia).
  split; [exact Hq|].
  apply (assignment_leaves_other_slots barrier_build counting_state 16 4096 24 Hq).
Defined.

(** X5.  Two guarded assignments to the same wrapper, with the barrier
    compiled in: the slot ends with the bits of the second pointer, and the
    barrier is called twice on the wrapper, the first call seeing the bits
    of the first pointer and the second call those of the second. *)
Theorem assignments_notify_in_order (b : Build) (st : State) (this p q : Z) :
  RECYCLER_WRITE_BARRIER b = true ->
  let st2 := WriteBarrierPtr.assign b (WriteBarrierPtr.assign b st this p) this q in
  load_bytes (memory st2) this (pointer_bytes b) = le_split (pointer_bytes b) q /\
  exists e1 e2,
    barrier_calls_since st st2 = [e1; e2] /\
    event_call e1 = WriteBarrier_at this /\
    event_call e2 = WriteBarrier_at this /\
    load_bytes (event_memory e1) this (pointer_bytes b) = le_split (pointer_bytes b) p /\
    load_bytes (event_memory e2) this (pointer_bytes b) = le_split (pointer_bytes b) q.
Proof.
  intros Hflag st2. subst st2. unfold WriteBarrierPtr.assign.
  destruct (WriteBarrierSet_compiled_in b st this p Hflag)
    as [_ [_ [e1 [Hlog1 [Hcall1 Hsees1]]]]].
  destruct (WriteBarrierSet_compiled_in b
              (WriteBarrierPtr.WriteBarrierSet b st this p) this q Hflag)
    as [Hbits [_ [e2 [Hlog2 [Hcall2 Hsees2]]]]].
  split; [exact Hbits|].
  exists e1, e2. repeat split; try assumption.
  unfold barrier_calls_since. rewrite Hlog2, Hlog1, <- app_assoc.
  rewrite skipn_app, skipn_all, Nat.sub_diag. reflexivity.
Qed.

Lemma assignments_notify_in_order_witness :
  RECYCLER_WRITE_BARRIER barrier_build = true /\
  load_bytes
    (memory (WriteBarrierPtr.assign barrier_build
               (WriteBarrierPtr.assign barrier_build counting_state 16 4096) 16 8192))
    16 (pointer_bytes barrier_build)
  = le_split (pointer_bytes barrier_build) 8192.
Proof.
  split; [reflexivity|].
  apply (assignments_notify_in_order barrier_build counting_state 16 4096 8192 eq_refl).
Defined.

(** ** Extent of the array operations *)

Section ExtentFacts.
Variable b : Build.
Implicit Types (st : State) (m : Mem) (dst src n x : Z).

Lemma size_t_mul_range x y : 0 <= size_t_mul b x y < size_t_modulus b.
Proof. unfold size_t_mul. apply Z.mod_pos_bound, size_t_modulus_pos. Qed.

Lemma memmove_changed_within m dst src n n' :
  n <= n' -> changed_within m (memmove m dst src n) dst n'.
Proof.
  intros Hn x Hx.
  destruct (Z_le_gt_dec dst x) as [Hlow|Hlow];
    [destruct (Z_lt_le_dec x (dst + n)) as [Hhigh|Hhigh]|].
  - lia.
  - rewrite memmove_outside in Hx by lia. congruence.
  - rewrite memmove_outside in Hx by lia. congruence.
Qed.

Lemma js_memcpy_s_changed_within m dst sizeInBytes src count :
  changed_within m (js_memcpy_s m dst sizeInBytes src count) dst sizeInBytes.
Proof. unfold js_memcpy_s, memcpy. apply memmove_changed_within. lia. Qed.

Lemma WriteBarrier_notifies T A PolicyType st address count :
  RECYCLER_WRITE_BARRIER b = true ->
  AllocatorWriteBarrierPolicy b A PolicyType = _write_barrier_policy ->
  WriteBarrier b T A PolicyType st address count
  = mkState (memory st)
      (barrier_log st
       ++ [mkEvent (WriteBarrier_over address (size_t_mul b (sizeof b T) count))
             (memory st)]).
Proof.
  intros Hflag HP. unfold WriteBarrier, _ArrayWriteBarrier.
  rewrite HP, Hflag. reflexivity.
Qed.

Lemma recycler_array_policy T :
  AllocatorInfo_AllocatorType b Recycler = Recycler ->
  AllocatorWriteBarrierPolicy b Recycler (TWriteBarrierPtr T) = _write_barrier_policy.
Proof.
  intros Hinfo.
  unfold AllocatorWriteBarrierPolicy, AllocatorWriteBarrierPolicy_primary.
  simpl. now rewrite Hinfo.
Qed.

Lemma written_then_WriteBarrier T A PolicyType st m address count :
  RECYCLER_WRITE_BARRIER b = true ->
  AllocatorWriteBarrierPolicy b A PolicyType = _write_barrier_policy ->
  changed_within (memory st) m address (size_t_mul b (sizeof b T) count) ->
  written_and_notified st
    (WriteBarrier b T A PolicyType (mkState m (barrier_log st)) address count)
    address (size_t_mul b (sizeof b T) count).
Proof.
  intros Hflag HP Hchanged.
  rewrite WriteBarrier_notifies by assumption. cbn [memory barrier_log].
  split; [exact Hchanged|].
  eexists. split; [apply barrier_calls_since_one; reflexivity|].
  split; reflexivity.
Qed.
End ExtentFacts.

(** X6.  With the barrier compiled in and [Recycler] its own allocator
    type, [MoveArray] and both [CopyArray] members of [WriteBarrierPtr]
    write no byte outside the range that their one barrier call names, and
    make that call after the bytes are written; the range is the
    destination's, of [count] (for [CopyArray], [dstCount]) elements, in
    [size_t] arithmetic. *)
Theorem array_writes_are_notified
    (b : Build) (T : CType) (st : State) (dst src count dstCount srcCount : Z) :
  RECYCLER_WRITE_BARRIER b = true ->
  AllocatorInfo_AllocatorType b Recycler = Recycler ->
  written_and_notified st (WriteBarrierPtr.MoveArray b T st dst src count)
    dst (size_t_mul b (sizeof b (TWriteBarrierPtr T)) count) /\
  written_and_notified st
    (WriteBarrierPtr.CopyArray b T st dst dstCount src srcCount)
    dst (size_t_mul b (sizeof b (TWriteBarrierPtr T)) dstCount) /\
  written_and_notified st
    (WriteBarrierPtr.CopyArray_raw b T st dst dstCount src srcCount)
    dst (size_t_mul b (sizeof b (TWriteBarrierPtr T)) dstCount).
Proof.
  intros Hflag Hinfo.
  pose proof (recycler_array_policy b T Hinfo) as HP.
  unfold WriteBarrierPtr.MoveArray, WriteBarrierPtr.CopyArray,
    WriteBarrierPtr.CopyArray_raw.
  split; [|split]; apply written_then_WriteBarrier; try assumption.
  - apply memmove_changed_within. lia.
  - apply js_memcpy_s_changed_within.
  - apply js_memcpy_s_changed_within.
Qed.

Lemma array_writes_are_notified_witness :
  RECYCLER_WRITE_BARRIER barrier_build = true /\
  AllocatorInfo_AllocatorType barrier_build Recycler = Recycler /\
  written_and_notified counting_state
    (WriteBarrierPtr.MoveArray barrier_build TInt counting_state 8 0 2) 8 16.
Proof.
  split; [reflexivity|]. split; [reflexivity|].
  apply (array_writes_are_notified barrier_build TInt counting_state 8 0 2 2 2
           eq_refl eq_refl).
Defined.

(** ** Elements after the array operations *)

Lemma le_split_zero (k : nat) : le_split k 0 = repeat x00 k.
Proof.
  induction k as [|k IH]; [reflexivity|].
  change (le_split (S k) 0) with (byte.of_Z 0 :: le_split k (Z.shiftr 0 8)).
  rewrite Z.shiftr_0_l, IH. reflexivity.
Qed.

Lemma element_in_extent (w i count : Z) :
  0 <= w -> 0 <= i < count -> 0 <= w * i /\ w * i + w <= w * count.
Proof. intros Hw Hi. nia. Qed.

(** X9.  After [MoveArray], every element of the destination holds what the
    element of the source with the same index held before the call, also
    when the two ranges overlap in either direction. *)
Theorem MoveArray_moves_elements
    (b : Build) (T : CType) (st : State) (dst src count i : Z) :
  array_extent b (sizeof b (TWriteBarrierPtr T)) count ->
  0 <= i < count ->
  let elem := sizeof b (TWriteBarrierPtr T) in
  let st' := WriteBarrierPtr.MoveArray b T st dst src count in
  load_bytes (memory st') (dst + elem * i) (pointer_bytes b)
  = load_bytes (memory st) (src + elem * i) (pointer_bytes b) /\
  WriteBarrierPtr.get b st' (dst + elem * i) = WriteBarrierPtr.get b st (src + elem * i).
Proof.
  intros Hext Hi elem st'.
  assert (Hbytes : load_bytes (memory st') (dst + elem * i) (pointer_bytes b)
                   = load_bytes (memory st) (src + elem * i) (pointer_bytes b)).
  { apply load_bytes_shifted. intros j Hj. subst st'.
    unfold WriteBarrierPtr.MoveArray. rewrite memory_WriteBarrier. cbn [memory].
    rewrite size_t_mul_exact by (apply sizeof_nonneg || assumption).
    fold elem.
    assert (Hin := element_in_extent elem i count (sizeof_nonneg b _) Hi).
    assert (Hw : elem = Z.of_nat (pointer_bytes b)) by reflexivity.
    rewrite memmove_inside by lia. f_equal. lia. }
  split; [exact Hbytes|].
  unfold WriteBarrierPtr.get, load_pointer. now rewrite Hbytes.
Qed.

Lemma MoveArray_moves_elements_witness :
  array_extent barrier_build (sizeof barrier_build (TWriteBarrierPtr TInt)) 3 /\
  0 <= 2 < 3 /\
  WriteBarrierPtr.get barrier_build
    (WriteBarrierPtr.MoveArray barrier_build TInt counting_state 8 0 3) (8 + 8 * 2)
  = WriteBarrierPtr.get barrier_build counting_state (0 + 8 * 2).
Proof.
  assert (Hext : array_extent barrier_build
                   (sizeof barrier_build (TWriteBarrierPtr TInt)) 3)
    by (split; [lia | reflexivity]).
  assert (Hi : 0 <= 2 < 3) by lia.
  split; [exact Hext|]. split; [exact Hi|].
  apply (MoveArray_moves_elements barrier_build TInt counting_state 8 0 3 2 Hext Hi).
Defined.

(** The barrier calls of [WriteBarrier] after a write, one by one. *)
Lemma WriteBarrier_events
    (b : Build) (T PolicyType : CType) (A : Allocator)
    (st : State) (m : Mem) (address count : Z) :
  let st' := WriteBarrier b T A PolicyType (mkState m (barrier_log st)) address count in
  map event_call (barrier_calls_since st st')
  = repeat (WriteBarrier_over address (size_t_mul b (sizeof b T) count))
      (array_barrier_calls b (AllocatorWriteBarrierPolicy b A PolicyType)) /\
  (forall e, In e (barrier_calls_since st st') -> event_memory e = memory st').
Proof.
  cbv zeta. unfold WriteBarrier, _ArrayWriteBarrier, array_barrier_calls.
  destruct (AllocatorWriteBarrierPolicy b A PolicyType);
    [destruct (RECYCLER_WRITE_BARRIER b)|].
  - erewrite barrier_calls_since_one by reflexivity.
    split; [reflexivity|]. intros e [<- | []]. reflexivity.
  - rewrite barrier_calls_since_same by reflexivity.
    split; [reflexivity|]. intros e [].
  - rewrite barrier_calls_since_same by reflexivity.
    split; [reflexivity|]. intros e [].
Qed.

(** A copy of [srcCount] elements by [js_memcpy_s] into a destination of
    [dstCount] elements, followed by [WriteBarrier] over the destination. *)
Lemma js_memcpy_s_then_WriteBarrier
    (b : Build) (T S PolicyType : CType) (A : Allocator)
    (st : State) (dst dstCount src srcCount : Z) :
  sizeof b S = sizeof b T ->
  array_extent b (sizeof b T) dstCount ->
  0 <= srcCount <= dstCount ->
  copied_and_notified st
    (WriteBarrier b T A PolicyType
       (mkState (js_memcpy_s (memory st)
                   dst (size_t_mul b (sizeof b T) dstCount)
                   src (size_t_mul b (sizeof b S) srcCount))
                (barrier_log st))
       dst dstCount)
    (sizeof b T) dst dstCount src srcCount
    (array_barrier_calls b (AllocatorWriteBarrierPolicy b A PolicyType)).
Proof.
  intros HS Hext Hsrc. rewrite HS.
  set (elem := sizeof b T) in *.
  assert (Hnonneg : 0 <= elem) by apply sizeof_nonneg.
  assert (Hsext : array_extent b elem srcCount).
  { destruct Hext as [_ Hlt]. split; [lia | nia]. }
  assert (Hmem : forall x,
             js_memcpy_s (memory st) dst (size_t_mul b elem dstCount)
               src (size_t_mul b elem srcCount) x
             = memmove (memory st) dst src (elem * srcCount) x).
  { intros x. unfold js_memcpy_s, memcpy.
    rewrite !size_t_mul_exact by assumption.
    rewrite Z.min_r by nia. reflexivity. }
  destruct (WriteBarrier_events b T PolicyType A st
              (js_memcpy_s (memory st) dst (size_t_mul b elem dstCount)
                 src (size_t_mul b elem srcCount)) dst dstCount)
    as [Hcalls Hsees].
  unfold copied_and_notified. rewrite memory_WriteBarrier. cbn [memory].
  split; [|split; [|split]].
  - intros i Hi. apply load_bytes_shifted. intros j Hj. rewrite Hmem.
    assert (Hin := element_in_extent elem i srcCount Hnonneg Hi).
    rewrite Z2Nat.id in Hj by assumption.
    rewrite memmove_inside by lia. f_equal. lia.
  - intros x Hx. rewrite Hmem in Hx.
    apply (memmove_changed_within (memory st) dst src (elem * srcCount)
             (elem * srcCount) (Z.le_refl _) x Hx).
  - rewrite Hcalls. fold elem. now rewrite (size_t_mul_exact b elem dstCount).
  - intros e He. rewrite (Hsees e He). now rewrite memory_WriteBarrier.
Qed.

(** X7.  [CopyArray<Allocator, T, PolicyType>] of [srcCount] elements into
    a destination of [dstCount] elements that fits the address space, with
    [srcCount <= dstCount] and the copied ranges disjoint, for every
    element type: the first [srcCount] elements of the destination hold the
    bytes of the source's elements, no other byte of the memory is written,
    and the barrier is called once or not at all by the policy of
    [Allocator] and [PolicyType], over the [dstCount] elements of the
    destination and after the copy. *)
Theorem CopyArray_copies_and_notifies
    (b : Build) (A : Allocator) (T PolicyType : CType)
    (st : State) (dst dstCount src srcCount : Z) :
  array_extent b (sizeof b T) dstCount ->
  0 <= srcCount <= dstCount ->
  disjoint_ranges dst src (sizeof b T * srcCount) ->
  copied_and_notified st (CopyArray b A T PolicyType st dst dstCount src srcCount)
    (sizeof b T) dst dstCount src srcCount
    (array_barrier_calls b (AllocatorWriteBarrierPolicy b A PolicyType)).
Proof.
  intros Hext Hsrc _. unfold CopyArray.
  apply (js_memcpy_s_then_WriteBarrier b T T); [reflexivity | assumption..].
Qed.

Lemma CopyArray_copies_and_notifies_witness :
  array_extent barrier_build (sizeof barrier_build (TPointer TInt)) 3 /\
  0 <= 2 <= 3 /\
  disjoint_ranges 64 0 (sizeof barrier_build (TPointer TInt) * 2) /\
  copied_and_notified counting_state
    (CopyArray barrier_build Recycler (TPointer TInt) (TPointer TInt)
       counting_state 64 3 0 2)
    8 64 3 0 2 1.
Proof.
  assert (Hext : array_extent barrier_build (sizeof barrier_build (TPointer TInt)) 3)
    by (split; [lia | reflexivity]).
  assert (Hsrc : 0 <= 2 <= 3) by lia.
  assert (Hdis : disjoint_ranges 64 0 (sizeof barrier_build (TPointer TInt) * 2))
    by (right; simpl; lia).
  split; [exact Hext|]. split; [exact Hsrc|]. split; [exact Hdis|].
  apply (CopyArray_copies_and_notifies barrier_build Recycler
           (TPointer TInt) (TPointer TInt) counting_state 64 3 0 2 Hext Hsrc Hdis).
Defined.

(** X8.  The [CopyArray] overloads that take the arrays through
    [WriteBarrierPtr<T>&] or [NoWriteBarrierPtr<T>&] copy between the arrays
    whose addresses the wrappers hold, with [srcCount <= dstCount] and the
    copied ranges disjoint: the first [srcCount] elements of the destination
    array hold the bytes of the source array's elements, no other byte is
    written, the barrier calls are over the destination array and not over
    the wrapper, and a destination wrapper that lies outside the copied
    bytes still holds the address of its array. *)
Theorem CopyArray_through_wrappers
    (b : Build) (A : Allocator) (T PolicyType : CType)
    (st : State) (dst dstCount src srcCount : Z) :
  array_extent b (sizeof b T) dstCount ->
  0 <= srcCount <= dstCount ->
  disjoint_ranges (WriteBarrierPtr.get b st dst) (WriteBarrierPtr.get b st src)
    (sizeof b T * srcCount) ->
  dst + Z.of_nat (pointer_bytes b) <= WriteBarrierPtr.get b st dst \/
  WriteBarrierPtr.get b st dst + sizeof b T * srcCount <= dst ->
  let array := WriteBarrierPtr.get b st dst in
  let source := WriteBarrierPtr.get b st src in
  let calls := array_barrier_calls b (AllocatorWriteBarrierPolicy b A PolicyType) in
  let guarded := CopyArray_WriteBarrierPtr b A T PolicyType st dst dstCount src srcCount in
  let unguarded :=
    CopyArray_NoWriteBarrierPtr b A T PolicyType st dst dstCount src srcCount in
  copied_and_notified st guarded (sizeof b T) array dstCount source srcCount calls /\
  WriteBarrierPtr.get b guarded dst = array /\
  copied_and_notified st unguarded (sizeof b T) array dstCount source srcCount calls /\
  NoWriteBarrierPtr.get b unguarded dst = array.
Proof.
  intros Hext Hsrc Hdisjoint Houtside array source calls guarded unguarded.
  assert (Hpost : copied_and_notified st guarded (sizeof b T) array dstCount
                    source srcCount calls).
  { subst guarded array source. unfold CopyArray_WriteBarrierPtr, CopyArray.
    apply (js_memcpy_s_then_WriteBarrier b T T); [reflexivity | assumption..]. }
  assert (Hkept : WriteBarrierPtr.get b guarded dst = array).
  { change (WriteBarrierPtr.get b guarded dst = WriteBarrierPtr.get b st dst).
    unfold WriteBarrierPtr.get, load_pointer. f_equal.
    apply load_bytes_shifted. intros j Hj.
    destruct (Byte.byte_eq_dec (memory guarded (dst + j)) (memory st (dst + j)))
      as [Heq|Hneq]; [exact Heq|].
    destruct Hpost as [_ [Hchanged _]]. apply Hchanged in Hneq.
    fold array in Houtside. clearbody array. lia. }
  split; [exact Hpost|]. split; [exact Hkept|].
  split; [exact Hpost | exact Hkept].
Qed.

Lemma CopyArray_through_wrappers_witness :
  let st := WriteBarrierPtr.construct barrier_build
              (WriteBarrierPtr.construct barrier_build counting_state 16 64) 24 128 in
  array_extent barrier_build (sizeof barrier_build TInt) 2 /\
  0 <= 2 <= 2 /\
  WriteBarrierPtr.get barrier_build
    (CopyArray_WriteBarrierPtr barrier_build Recycler TInt TInt st 16 2 24 2) 16 = 64 /\
  load_bytes
    (memory (CopyArray_WriteBarrierPtr barrier_build Recycler TInt TInt st 16 2 24 2))
    (64 + 4 * 1) 4
  = load_bytes (memory st) (128 + 4 * 1) 4.
Proof.
  intros st.
  assert (Hext : array_extent barrier_build (sizeof barrier_build TInt) 2)
    by (split; [lia | reflexivity]).
  assert (Hsrc : 0 <= 2 <= 2) by lia.
  split; [exact Hext|]. split; [exact Hsrc|].
  assert (Hdis : disjoint_ranges (WriteBarrierPtr.get barrier_build st 16)
                   (WriteBarrierPtr.get barrier_build st 24)
                   (sizeof barrier_build TInt * 2))
    by (left; vm_compute; discriminate).
  assert (Hout : 16 + Z.of_nat (pointer_bytes barrier_build)
                 <= WriteBarrierPtr.get barrier_build st 16 \/
                 WriteBarrierPtr.get barrier_build st 16
                 + sizeof barrier_build TInt * 2 <= 16)
    by (left; vm_compute; discriminate).
  destruct (CopyArray_through_wrappers barrier_build Recycler TInt TInt st 16 2 24 2
              Hext Hsrc Hdis Hout) as [[Hcopied _] [Hkept _]].
  split; [exact Hkept|].
  apply (Hcopied 1). lia.
Defined.

(** X10.  [WriteBarrierPtr::CopyArray], from [WriteBarrierPtr] elements or
    from raw pointers, of [srcCount] elements into a destination of
    [dstCount] elements that fits the address space, with
    [srcCount <= dstCount] and the copied ranges disjoint: the first
    [srcCount] wrappers of the destination hold the source's pointers, the
    wrappers from [srcCount] on hold what they held, no byte outside the
    copied elements is written, and the barrier calls are those of the
    policy, each over the [dstCount] elements of the destination and made
    after the copy. *)
Theorem CopyArray_shorter_source
    (b : Build) (T : CType) (st : State) (dst dstCount src srcCount : Z) :
  array_extent b (sizeof b (TWriteBarrierPtr T)) dstCount ->
  0 <= srcCount <= dstCount ->
  disjoint_ranges dst src (sizeof b (TWriteBarrierPtr T) * srcCount) ->
  let elem := sizeof b (TWriteBarrierPtr T) in
  let calls :=
    array_barrier_calls b (AllocatorWriteBarrierPolicy b Recycler (TWriteBarrierPtr T)) in
  let copied := WriteBarrierPtr.CopyArray b T st dst dstCount src srcCount in
  let copied_raw := WriteBarrierPtr.CopyArray_raw b T st dst dstCount src srcCount in
  copied_and_notified st copied elem dst dstCount src srcCount calls /\
  copied_and_notified st copied_raw elem dst dstCount src srcCount calls /\
  (forall i, 0 <= i < srcCount ->
     WriteBarrierPtr.get b copied (dst + elem * i)
     = WriteBarrierPtr.get b st (src + elem * i) /\
     WriteBarrierPtr.get b copied_raw (dst + elem * i)
     = load_pointer b (memory st) (src + elem * i)) /\
  (forall i, srcCount <= i < dstCount ->
     WriteBarrierPtr.get b copied (dst + elem * i)
     = WriteBarrierPtr.get b st (dst + elem * i) /\
     WriteBarrierPtr.get b copied_raw (dst + elem * i)
     = WriteBarrierPtr.get b st (dst + elem * i)).
Proof.
  intros Hext Hsrc _ elem calls copied copied_raw.
  assert (Hw : elem = Z.of_nat (pointer_bytes b)) by reflexivity.
  assert (Hpost : copied_and_notified st copied elem dst dstCount src srcCount calls).
  { subst copied. unfold WriteBarrierPtr.CopyArray.
    apply (js_memcpy_s_then_WriteBarrier b (TWriteBarrierPtr T) (TWriteBarrierPtr T));
      [reflexivity | assumption..]. }
  assert (Hraw : copied_and_notified st copied_raw elem dst dstCount src srcCount calls).
  { subst copied_raw. unfold WriteBarrierPtr.CopyArray_raw.
    apply (js_memcpy_s_then_WriteBarrier b (TWriteBarrierPtr T) (TPointer T));
      [reflexivity | assumption..]. }
  assert (Hslots : forall st',
             copied_and_notified st st' elem dst dstCount src srcCount calls ->
             (forall i, 0 <= i < srcCount ->
                WriteBarrierPtr.get b st' (dst + elem * i)
                = WriteBarrierPtr.get b st (src + elem * i)) /\
             (forall i, srcCount <= i < dstCount ->
                WriteBarrierPtr.get b st' (dst + elem * i)
                = WriteBarrierPtr.get b st (dst + elem * i))).
  { intros st' [Hcopied [Hchanged _]]. split.
    - intros i Hi. unfold WriteBarrierPtr.get, load_pointer. f_equal.
      specialize (Hcopied i Hi). rewrite Hw, Nat2Z.id in Hcopied.
      rewrite Hw. exact Hcopied.
    - intros i Hi. unfold WriteBarrierPtr.get, load_pointer. f_equal.
      apply load_bytes_shifted. intros j Hj.
      destruct (Byte.byte_eq_dec (memory st' (dst + elem * i + j))
                  (memory st (dst + elem * i + j))) as [Heq|Hneq]; [exact Heq|].
      apply Hchanged in Hneq. nia. }
  destruct (Hslots copied Hpost) as [Hfirst Hrest].
  destruct (Hslots copied_raw Hraw) as [Hfirst_raw Hrest_raw].
  split; [exact Hpost|]. split; [exact Hraw|]. split.
  - intros i Hi. split; [apply Hfirst | apply Hfirst_raw]; assumption.
  - intros i Hi. split; [apply Hrest | apply Hrest_raw]; assumption.
Qed.

Lemma CopyArray_shorter_source_witness :
  array_extent barrier_build (sizeof barrier_build (TWriteBarrierPtr TInt)) 3 /\
  0 <= 1 <= 3 /\
  disjoint_ranges 64 0 (sizeof barrier_build (TWriteBarrierPtr TInt) * 1) /\
  WriteBarrierPtr.get barrier_build
    (WriteBarrierPtr.CopyArray barrier_build TInt counting_state 64 3 0 1) (64 + 8 * 2)
  = WriteBarrierPtr.get barrier_build counting_state (64 + 8 * 2).
Proof.
  assert (Hext : array_extent barrier_build
                   (sizeof barrier_build (TWriteBarrierPtr TInt)) 3)
    by (split; [lia | reflexivity]).
  assert (Hsrc : 0 <= 1 <= 3) by lia.
  assert (Hdis : disjoint_ranges 64 0
                   (sizeof barrier_build (TWriteBarrierPtr TInt) * 1))
    by (right; simpl; lia).
  split; [exact Hext|]. split; [exact Hsrc|]. split; [exact Hdis|].
  destruct (CopyArray_shorter_source barrier_build TInt counting_state 64 3 0 1
              Hext Hsrc Hdis) as [_ [_ [_ Hrest]]].
  apply (Hrest 2). lia.
Defined.

Lemma clear_elements_memset (b : Build) (n : nat) :
  forall (st : State) (dst x : Z),
    memory (clear_elements b n st dst) x
    = memset (memory st) dst 0 (Z.of_nat (pointer_bytes b) * Z.of_nat n) x /\
    barrier_log (clear_elements b n st dst) = barrier_log st.
Proof.
  induction n as [|n IH]; intros st dst x.
  - simpl. rewrite memset_outside by lia. split; reflexivity.
  - cbn [clear_elements].
    destruct (IH (WriteBarrierPtr.NoWriteBarrierSet b st dst 0)
                 (dst + Z.of_nat (pointer_bytes b)) x) as [Hmem Hlog].
    split; [|exact Hlog].
    rewrite Hmem. cbn [WriteBarrierPtr.NoWriteBarrierSet memory].
    assert (Hpos : 0 <= Z.of_nat (pointer_bytes b) * Z.of_nat n) by nia.
    assert (Hsize : Z.of_nat (pointer_bytes b) * Z.of_nat (S n)
                    = Z.of_nat (pointer_bytes b)
                      + Z.of_nat (pointer_bytes b) * Z.of_nat n) by lia.
    rewrite Hsize.
    destruct (Z_le_gt_dec (dst + Z.of_nat (pointer_bytes b)) x) as [Hlow|Hlow];
      [destruct (Z_lt_le_dec x (dst + Z.of_nat (pointer_bytes b)
                                + Z.of_nat (pointer_bytes b) * Z.of_nat n))
        as [Hhigh|Hhigh]|].
    + rewrite !memset_inside by lia. reflexivity.
    + rewrite !memset_outside by lia.
      apply store_pointer_only_slot. lia.
    + rewrite memset_outside by lia.
      destruct (Z_le_gt_dec dst x) as [Hin|Hout].
      * rewrite memset_inside by lia.
        unfold store_pointer. rewrite le_split_zero.
        rewrite store_bytes_inside by (rewrite repeat_length; lia).
        apply nth_repeat.
      * rewrite memset_outside by lia.
        apply store_pointer_only_slot. lia.
Qed.

(** X11.  [ClearArray] leaves the memory and the barrier log as
    [NoWriteBarrierSet] with the null pointer on each of the [count]
    elements, one after the other, leaves them. *)
Theorem ClearArray_as_null_assignments
    (b : Build) (T : CType) (st : State) (dst count : Z) :
  array_extent b (sizeof b (TWriteBarrierPtr T)) count ->
  let st' := WriteBarrierPtr.ClearArray b T st dst count in
  let cleared := clear_elements b (Z.to_nat count) st dst in
  (forall x, memory st' x = memory cleared x) /\
  barrier_log st' = barrier_log cleared.
Proof.
  intros Hext st' cleared. subst st' cleared.
  split.
  - intros x.
    rewrite (proj1 (clear_elements_memset b (Z.to_nat count) st dst x)).
    unfold WriteBarrierPtr.ClearArray. cbn [memory].
    now rewrite pointer_extent_exact.
  - rewrite (proj2 (clear_elements_memset b (Z.to_nat count) st dst 0)).
    reflexivity.
Qed.

Lemma ClearArray_as_null_assignments_witness :
  array_extent barrier_build (sizeof barrier_build (TWriteBarrierPtr TInt)) 3 /\
  memory (WriteBarrierPtr.ClearArray barrier_build TInt counting_state 16 3) 20
  = memory (clear_elements barrier_build 3 counting_state 16) 20.
Proof.
  assert (Hext : array_extent barrier_build
                   (sizeof barrier_build (TWriteBarrierPtr TInt)) 3)
    by (split; [lia | reflexivity]).
  split; [exact Hext|].
  apply (ClearArray_as_null_assignments barrier_build TInt counting_state 16 3 Hext).
Defined.

(** X12.  With a count of zero, [MoveArray], [CopyArray] and [ClearArray]
    change no byte.  [ClearArray] makes no barrier call; [MoveArray] and
    [CopyArray] still make the calls of their policy, over zero bytes. *)
Theorem empty_arrays
    (b : Build) (T : CType) (st : State) (dst src srcCount : Z) :
  let P := AllocatorWriteBarrierPolicy b Recycler (TWriteBarrierPtr T) in
  let moved := WriteBarrierPtr.MoveArray b T st dst src 0 in
  let copied := WriteBarrierPtr.CopyArray b T st dst 0 src srcCount in
  let cleared := WriteBarrierPtr.ClearArray b T st dst 0 in
  (forall x, memory moved x = memory st x) /\
  (forall x, memory copied x = memory st x) /\
  (forall x, memory cleared x = memory st x) /\
  map event_call (barrier_calls_since st moved)
  = repeat (WriteBarrier_over dst 0) (array_barrier_calls b P) /\
  map event_call (barrier_calls_since st copied)
  = repeat (WriteBarrier_over dst 0) (array_barrier_calls b P) /\
  barrier_calls_since st cleared = [].
Proof.
  intros P moved copied cleared. subst moved copied cleared.
  assert (Hzero : forall e, size_t_mul b e 0 = 0).
  { intros e. unfold size_t_mul. rewrite Z.mul_0_r. apply Z.mod_0_l.
    pose proof (size_t_modulus_pos b). lia. }
  assert (Hcalls : forall st1,
             barrier_log st1 = barrier_log st ->
             map event_call
               (barrier_calls_since st
                  (WriteBarrier b (TWriteBarrierPtr T) Recycler (TWriteBarrierPtr T)
                     st1 dst 0))
             = repeat (WriteBarrier_over dst 0) (array_barrier_calls b P)).
  { intros st1 Hlog. unfold WriteBarrier, _ArrayWriteBarrier, array_barrier_calls.
    fold P. destruct P; [destruct (RECYCLER_WRITE_BARRIER b)|].
    - erewrite barrier_calls_since_one
        by (unfold RecyclerWriteBarrierManager_WriteBarrier; cbn [barrier_log];
            rewrite Hlog; reflexivity).
      cbn [map event_call repeat]. now rewrite Hzero.
    - now rewrite barrier_calls_since_same.
    - now rewrite barrier_calls_since_same. }
  unfold WriteBarrierPtr.MoveArray, WriteBarrierPtr.CopyArray,
    WriteBarrierPtr.ClearArray.
  rewrite !memory_WriteBarrier. cbn [memory]. rewrite !Hzero.
  split; [|split; [|split; [|split; [|split]]]].
  - intros x. apply memmove_outside. lia.
  - intros x. unfold js_memcpy_s, memcpy. apply memmove_outside.
    pose proof (size_t_mul_range b (Z.of_nat (pointer_bytes b)) srcCount). lia.
  - intros x. apply memset_outside. lia.
  - apply Hcalls. reflexivity.
  - apply Hcalls. reflexivity.
  - apply barrier_calls_since_same. reflexivity.
Qed.

(** ** Traits *)

(** X13.  The array item type that [WriteBarrierArrayItemTraits] chooses has
    the size of the element type it was chosen for and resolves to the same
    policy under the same allocator, and choosing again for the item type
    gives the item type itself. *)
Theorem array_item_type_is_compatible (b : Build) (T : CType) (A : Allocator) :
  let Item := WriteBarrierArrayItemTraits b T A in
  sizeof b Item = sizeof b T /\
  AllocatorWriteBarrierPolicy b A Item = AllocatorWriteBarrierPolicy b A T /\
  WriteBarrierArrayItemTraits b Item A = Item.
Proof.
  cbv zeta. unfold WriteBarrierArrayItemTraits.
  destruct T as [| name size | T' | T' | T' | T' | P];
    try (cbn [_ArrayItemTypeTraits];
         repeat split;
         destruct (AllocatorWriteBarrierPolicy b A _); reflexivity).
  destruct (AllocatorWriteBarrierPolicy b A (TPointer T')) eqn:HP;
    cbn [_ArrayItemTypeTraits].
  - split; [reflexivity|]. split.
    + rewrite <- HP. unfold AllocatorWriteBarrierPolicy.
      destruct A; reflexivity.
    + destruct (AllocatorWriteBarrierPolicy b A (TWriteBarrierPtr T')); reflexivity.
  - split; [reflexivity|]. split; [assumption|].
    rewrite HP. reflexivity.
Qed.

(** X14.  A pointer member and a pointer array item get the guarded
    wrapper under the same allocators: [WriteBarrierArrayItemTraits] turns
    [T*] into [WriteBarrierPtr<T>] exactly when [WriteBarrierPtrTraits]
    chooses [WriteBarrierPtr<T>].  That is always so under
    [RecyclerNonLeafAllocator], and under an allocator without
    specialisation exactly when its allocator type is [Recycler].  An
    element type that is not a pointer is never wrapped. *)
Theorem pointer_members_and_items_agree (b : Build) (T : CType) (A : Allocator) :
  (WriteBarrierArrayItemTraits b (TPointer T) A = TWriteBarrierPtr T <->
   WriteBarrierPtrTraits b T A = UseWriteBarrierPtr) /\
  (WriteBarrierArrayItemTraits b (TPointer T) A = TPointer T <->
   WriteBarrierPtrTraits b T A = UseNoWriteBarrierPtr) /\
  WriteBarrierPtrTraits b T RecyclerNonLeafAllocator = UseWriteBarrierPtr /\
  (A <> RecyclerNonLeafAllocator ->
   (WriteBarrierPtrTraits b T A = UseWriteBarrierPtr <->
    AllocatorInfo_AllocatorType b A = Recycler)) /\
  ((forall T', T <> TPointer T') -> WriteBarrierArrayItemTraits b T A = T).
Proof.
  unfold WriteBarrierArrayItemTraits, WriteBarrierPtrTraits.
  split; [|split; [|split; [|split]]].
  - destruct (AllocatorWriteBarrierPolicy b A (TPointer T));
      cbn [_ArrayItemTypeTraits _WriteBarrierPtrPolicy]; split; congruence.
  - destruct (AllocatorWriteBarrierPolicy b A (TPointer T));
      cbn [_ArrayItemTypeTraits _WriteBarrierPtrPolicy]; split; congruence.
  - reflexivity.
  - intros HA.
    assert (Hspec : AllocatorWriteBarrierPolicy_specialized A (TPointer T) = None)
      by (destruct A; try reflexivity; congruence).
    unfold AllocatorWriteBarrierPolicy. rewrite Hspec.
    unfold AllocatorWriteBarrierPolicy_primary. cbn [TypeWriteBarrierPolicy].
    destruct (AllocatorInfo_AllocatorType b A);
      cbn [_AllocatorTypeWriteBarrierPolicy _AndWriteBarrierPolicy
           _WriteBarrierPtrPolicy]; split; congruence.
  - intros Hnot. destruct T; try reflexivity;
      try (destruct (AllocatorWriteBarrierPolicy b A _); reflexivity).
    exfalso. eapply Hnot. reflexivity.
Qed.

(** X15.  The tag [_no_write_barrier_policy] given as policy type
    suppresses the array barrier under every allocator but
    [RecyclerNonLeafAllocator]: there the specialisation for every type but
    [int] applies to the tag too, and [WriteBarrier] makes its call when the
    barrier is compiled in. *)
Theorem no_barrier_tag_under_non_leaf
    (b : Build) (T : CType) (A : Allocator) (st : State) (address count : Z) :
  let tag := TPolicyTag _no_write_barrier_policy in
  AllocatorWriteBarrierPolicy b RecyclerNonLeafAllocator tag = _write_barrier_policy /\
  length (barrier_calls_since st
            (WriteBarrier b T RecyclerNonLeafAllocator tag st address count))
  = (if RECYCLER_WRITE_BARRIER b then 1%nat else 0%nat) /\
  (A <> RecyclerNonLeafAllocator ->
   AllocatorWriteBarrierPolicy b A tag = _no_write_barrier_policy /\
   WriteBarrier b T A tag st address count = st).
Proof.
  cbv zeta. split; [reflexivity|]. split.
  - rewrite barrier_calls_WriteBarrier. reflexivity.
  - intros HA.
    assert (HP : AllocatorWriteBarrierPolicy b A (TPolicyTag _no_write_barrier_policy)
                 = _no_write_barrier_policy).
    { unfold AllocatorWriteBarrierPolicy, AllocatorWriteBarrierPolicy_primary.
      destruct A; try congruence;
        cbn [AllocatorWriteBarrierPolicy_specialized TypeWriteBarrierPolicy];
        destruct (_AllocatorTypeWriteBarrierPolicy _); reflexivity. }
    split; [exact HP|].
    unfold WriteBarrier. rewrite HP. reflexivity.
Qed.

(** ** [min] and [max] together *)

Section MinMaxTogether.
Context {T : Type} `{StrictTotalOrder T}.

Lemma plain_min_max_partition (a b : T) :
  (plain_min a b = a /\ plain_max a b = b) \/
  (plain_min a b = b /\ plain_max a b = a).
Proof.
  unfold plain_min, plain_max. rewrite greater_less.
  destruct (less a b) eqn:Hab.
  - rewrite (less_asym a b Hab). left. split; reflexivity.
  - destruct (less b a) eqn:Hba.
    + right. split; reflexivity.
    + pose proof (less_total a b Hab Hba) as ->. left. split; reflexivity.
Qed.

Lemma plain_min_not_above_max (a b : T) :
  not_above (plain_min a b) (plain_max a b) = true.
Proof.
  unfold plain_min, plain_max, not_above. rewrite greater_less.
  destruct (less a b) eqn:Hab.
  - rewrite (less_asym a b Hab), (less_asym a b Hab). reflexivity.
  - destruct (less b a) eqn:Hba.
    + rewrite Hab. reflexivity.
    + rewrite less_irrefl. reflexivity.
Qed.
End MinMaxTogether.

(** X16.  On a totally ordered type, the [min] and the [max] of the same
    two operands, wrapped or not, return the two operands between them,
    one each, and the result of [min] is not above the result of [max]; of
    an operand and itself both return that operand. *)
Theorem min_max_return_both_operands
    {T : Type} `{StrictTotalOrder T} (a b : T) :
  let A := NoWriteBarrierField.wrap a in
  let B := NoWriteBarrierField.wrap b in
  ((min_Field_Field A B = a /\ max_Field_Field A B = b) \/
   (min_Field_Field A B = b /\ max_Field_Field A B = a)) /\
  ((min_T_Field a B = a /\ max_T_Field a B = b) \/
   (min_T_Field a B = b /\ max_T_Field a B = a)) /\
  ((min_Field_T A b = a /\ max_Field_T A b = b) \/
   (min_Field_T A b = b /\ max_Field_T A b = a)) /\
  not_above (min_Field_Field A B) (max_Field_Field A B) = true /\
  not_above (min_T_Field a B) (max_T_Field a B) = true /\
  not_above (min_Field_T A b) (max_Field_T A b) = true /\
  min_Field_Field A A = a /\
  max_Field_Field A A = a.
Proof.
  intros A B.
  pose proof (plain_min_max_partition a b) as Hpart.
  pose proof (plain_min_not_above_max a b) as Hord.
  repeat split; try exact Hpart; try exact Hord.
  - unfold min_Field_Field, NoWriteBarrierField.to_T. cbn.
    now rewrite less_irrefl.
  - unfold max_Field_Field, NoWriteBarrierField.to_T. cbn.
    now rewrite greater_less, less_irrefl.
Qed.

Lemma min_max_return_both_operands_witness :
  (min_Field_Field (NoWriteBarrierField.wrap 7) (NoWriteBarrierField.wrap (-2)) = 7 /\
   max_Field_Field (NoWriteBarrierField.wrap 7) (NoWriteBarrierField.wrap (-2)) = -2) \/
  (min_Field_Field (NoWriteBarrierField.wrap 7) (NoWriteBarrierField.wrap (-2)) = -2 /\
   max_Field_Field (NoWriteBarrierField.wrap 7) (NoWriteBarrierField.wrap (-2)) = 7).
Proof.
  exact (proj1 (@min_max_return_both_operands Z Z_Ordered Z_StrictTotalOrder 7 (-2))).
Defined.
